(** * The exported API contract of Roo-Code: [src/exports/roo-code.d.ts]

    The source is a TypeScript declaration file: interfaces, string-literal
    unions and one import.  It is embedded here as it is written: a small
    syntax of TypeScript type expressions, the ten declarations of the file
    transcribed one by one, and on top of them the meaning TypeScript gives
    them: alias expansion and structural conformance of a JavaScript value
    to a type.  The theorems at the end are about those definitions. *)

From Stdlib Require Import PrimFloat.
From stdpp Require Import base list strings gmap.

Open Scope string_scope.

Local Set Warnings "-register-all".

(** ** Type expressions *)

(** The type expressions the file uses.  [Promise], [Partial] and [Record]
    are TypeScript's global utility types; every other name is a [TRef]. *)
Inductive ty : Type :=
| TNumber
| TString
| TBoolean
| TVoid
| TAny
| TUnknown
| TLit (s : string)
| TRef (name : string)
| TArray (elem : ty)
| TPromise (res : ty)
| TPartial (arg : ty)
| TRecord (key val : ty)
| TUnion (alts : list ty)
| TTuple (elems : list (option string * ty))
| TObject (members : list (string * (bool * ty)))
| TFun (params : list (string * (bool * ty))) (ret : ty).

(** A member or a parameter: its name, whether it is written with [?], and
    its type. *)
Abbreviation member := (string * (bool * ty))%type.

Definition req (name : string) (t : ty) : member := (name, (false, t)).
Definition opt (name : string) (t : ty) : member := (name, (true, t)).
Definition method (name : string) (params : list member) (ret : ty) : member :=
  (name, (false, TFun params ret)).
(** A labelled tuple element, [label: t]. *)
Definition lab (label : string) (t : ty) : option string * ty := (Some label, t).

Inductive decl : Type :=
| Interface (name : string) (extends : list (string * list ty)) (body : list member)
| TypeAlias (name : string) (rhs : ty).

Definition decl_name (d : decl) : string :=
  match d with Interface n _ _ => n | TypeAlias n _ => n end.

(** The type a declared name stands for: for an interface, the members
    written in its body.  What an interface inherits is not among them: the
    one [extends] clause of the file, kept by [decl_extends], names
    [EventEmitter], which the module ["events"] declares and this file only
    imports. *)
Definition decl_type (d : decl) : ty :=
  match d with Interface _ _ body => TObject body | TypeAlias _ rhs => rhs end.

Definition decl_extends (d : decl) : list (string * list ty) :=
  match d with Interface _ ext _ => ext | TypeAlias _ _ => [] end.

(** ** The declaration file, line by line *)

(** [import { EventEmitter } from "events"] *)
Definition imports : list (list string * string) := [ (["EventEmitter"], "events") ].

Definition TokenUsage : decl :=
  Interface "TokenUsage" []
    [ req "totalTokensIn" TNumber;
      req "totalTokensOut" TNumber;
      opt "totalCacheWrites" TNumber;
      opt "totalCacheReads" TNumber;
      req "totalCost" TNumber;
      req "contextTokens" TNumber ].

Definition RooCodeEvents : decl :=
  Interface "RooCodeEvents" []
    [ req "message"
        (TTuple [ (None, TObject [ req "taskId" TString;
                                   req "action" (TUnion [TLit "created"; TLit "updated"]);
                                   req "message" (TRef "ClineMessage") ]) ]);
      req "taskStarted" (TTuple [lab "taskId" TString]);
      req "taskPaused" (TTuple [lab "taskId" TString]);
      req "taskUnpaused" (TTuple [lab "taskId" TString]);
      req "taskAskResponded" (TTuple [lab "taskId" TString]);
      req "taskAborted" (TTuple [lab "taskId" TString]);
      req "taskSpawned" (TTuple [lab "taskId" TString; lab "childTaskId" TString]);
      req "taskCompleted" (TTuple [lab "taskId" TString; lab "usage" (TRef "TokenUsage")]);
      req "taskTokenUsageUpdated" (TTuple [lab "taskId" TString; lab "usage" (TRef "TokenUsage")]) ].

Definition RooCodeAPI : decl :=
  Interface "RooCodeAPI" [ ("EventEmitter", [TRef "RooCodeEvents"]) ]
    [ method "startNewTask" [opt "task" TString; opt "images" (TArray TString)] (TPromise TString);
      method "getCurrentTaskStack" [] (TArray TString);
      method "clearCurrentTask" [opt "lastMessage" TString] (TPromise TVoid);
      method "cancelCurrentTask" [] (TPromise TVoid);
      method "sendMessage" [opt "message" TString; opt "images" (TArray TString)] (TPromise TVoid);
      method "pressPrimaryButton" [] (TPromise TVoid);
      method "pressSecondaryButton" [] (TPromise TVoid);
      method "setConfiguration" [req "values" (TPartial (TRef "ConfigurationValues"))] (TPromise TVoid);
      method "isReady" [] TBoolean;
      method "getMessages" [req "taskId" TString] (TArray (TRef "ClineMessage"));
      method "getTokenUsage" [req "taskId" TString] (TRef "TokenUsage");
      method "log" [req "message" TString] TVoid ].

Definition ClineAsk : decl :=
  TypeAlias "ClineAsk"
    (TUnion [ TLit "followup";
              TLit "command";
              TLit "command_output";
              TLit "completion_result";
              TLit "tool";
              TLit "api_req_failed";
              TLit "resume_task";
              TLit "resume_completed_task";
              TLit "mistake_limit_reached";
              TLit "browser_action_launch";
              TLit "use_mcp_server";
              TLit "finishTask" ]).

Definition ClineSay : decl :=
  TypeAlias "ClineSay"
    (TUnion [ TLit "task";
              TLit "error";
              TLit "api_req_started";
              TLit "api_req_finished";
              TLit "api_req_retried";
              TLit "api_req_retry_delayed";
              TLit "api_req_deleted";
              TLit "text";
              TLit "reasoning";
              TLit "completion_result";
              TLit "user_feedback";
              TLit "user_feedback_diff";
              TLit "command_output";
              TLit "tool";
              TLit "shell_integration_warning";
              TLit "browser_action";
              TLit "browser_action_result";
              TLit "command";
              TLit "mcp_server_request_started";
              TLit "mcp_server_response";
              TLit "new_task_started";
              TLit "new_task";
              TLit "checkpoint_saved";
              TLit "rooignore_error" ]).

Definition ClineMessage : decl :=
  Interface "ClineMessage" []
    [ req "ts" TNumber;
      req "type" (TUnion [TLit "ask"; TLit "say"]);
      opt "ask" (TRef "ClineAsk");
      opt "say" (TRef "ClineSay");
      opt "text" TString;
      opt "images" (TArray TString);
      opt "partial" TBoolean;
      opt "reasoning" TString;
      opt "conversationHistoryIndex" TNumber;
      opt "checkpoint" (TRecord TString TUnknown);
      opt "progressStatus" (TRef "ToolProgressStatus") ].

Definition SecretKey : decl :=
  TypeAlias "SecretKey"
    (TUnion [ TLit "apiKey";
              TLit "glamaApiKey";
              TLit "openRouterApiKey";
              TLit "awsAccessKey";
              TLit "awsSecretKey";
              TLit "awsSessionToken";
              TLit "openAiApiKey";
              TLit "geminiApiKey";
              TLit "openAiNativeApiKey";
              TLit "deepSeekApiKey";
              TLit "mistralApiKey";
              TLit "unboundApiKey";
              TLit "requestyApiKey" ]).

Definition GlobalStateKey : decl :=
  TypeAlias "GlobalStateKey"
    (TUnion [ TLit "apiProvider";
              TLit "apiModelId";
              TLit "glamaModelId";
              TLit "glamaModelInfo";
              TLit "awsRegion";
              TLit "awsUseCrossRegionInference";
              TLit "awsProfile";
              TLit "awsUseProfile";
              TLit "awsCustomArn";
              TLit "vertexKeyFile";
              TLit "vertexJsonCredentials";
              TLit "vertexProjectId";
              TLit "vertexRegion";
              TLit "lastShownAnnouncementId";
              TLit "customInstructions";
              TLit "alwaysAllowReadOnly";
              TLit "alwaysAllowWrite";
              TLit "alwaysAllowExecute";
              TLit "alwaysAllowBrowser";
              TLit "alwaysAllowMcp";
              TLit "alwaysAllowModeSwitch";
              TLit "alwaysAllowSubtasks";
              TLit "taskHistory";
              TLit "openAiBaseUrl";
              TLit "openAiModelId";
              TLit "openAiCustomModelInfo";
              TLit "openAiUseAzure";
              TLit "ollamaModelId";
              TLit "ollamaBaseUrl";
              TLit "lmStudioModelId";
              TLit "lmStudioBaseUrl";
              TLit "anthropicBaseUrl";
              TLit "modelMaxThinkingTokens";
              TLit "azureApiVersion";
              TLit "openAiStreamingEnabled";
              TLit "openRouterModelId";
              TLit "openRouterModelInfo";
              TLit "openRouterBaseUrl";
              TLit "openRouterSpecificProvider";
              TLit "openRouterUseMiddleOutTransform";
              TLit "googleGeminiBaseUrl";
              TLit "allowedCommands";
              TLit "ttsEnabled";
              TLit "ttsSpeed";
              TLit "soundEnabled";
              TLit "soundVolume";
              TLit "diffEnabled";
              TLit "enableCheckpoints";
              TLit "checkpointStorage";
              TLit "browserViewportSize";
              TLit "screenshotQuality";
              TLit "remoteBrowserHost";
              TLit "fuzzyMatchThreshold";
              TLit "writeDelayMs";
              TLit "terminalOutputLineLimit";
              TLit "terminalShellIntegrationTimeout";
              TLit "mcpEnabled";
              TLit "enableMcpServerCreation";
              TLit "alwaysApproveResubmit";
              TLit "requestDelaySeconds";
              TLit "rateLimitSeconds";
              TLit "currentApiConfigName";
              TLit "listApiConfigMeta";
              TLit "vsCodeLmModelSelector";
              TLit "mode";
              TLit "modeApiConfigs";
              TLit "customModePrompts";
              TLit "customSupportPrompts";
              TLit "enhancementApiConfigId";
              TLit "experiments";
              TLit "autoApprovalEnabled";
              TLit "enableCustomModeCreation";
              TLit "customModes";
              TLit "unboundModelId";
              TLit "requestyModelId";
              TLit "requestyModelInfo";
              TLit "unboundModelInfo";
              TLit "modelTemperature";
              TLit "modelMaxTokens";
              TLit "mistralCodestralUrl";
              TLit "maxOpenTabsContext";
              TLit "maxWorkspaceFiles";
              TLit "browserToolEnabled";
              TLit "lmStudioSpeculativeDecodingEnabled";
              TLit "lmStudioDraftModelId";
              TLit "telemetrySetting";
              TLit "showRooIgnoredFiles";
              TLit "remoteBrowserEnabled";
              TLit "language";
              TLit "maxReadFileLine";
              TLit "fakeAi" ]).

Definition ConfigurationKey : decl :=
  TypeAlias "ConfigurationKey" (TUnion [TRef "GlobalStateKey"; TRef "SecretKey"]).

Definition ConfigurationValues : decl :=
  TypeAlias "ConfigurationValues" (TRecord (TRef "ConfigurationKey") TAny).

(** The declarations in the order of the file. *)
Definition declarations : list decl :=
  [ TokenUsage; RooCodeEvents; RooCodeAPI; ClineAsk; ClineSay; ClineMessage;
    SecretKey; GlobalStateKey; ConfigurationKey; ConfigurationValues ].

Definition declared : list string := decl_name <$> declarations.
Definition imported : list string := mjoin (fst <$> imports).

Fixpoint lookup_decl (n : string) (ds : list decl) : option decl :=
  match ds with
  | [] => None
  | d :: ds' => if String.eqb n (decl_name d) then Some d else lookup_decl n ds'
  end.

(** First member of that name; TypeScript rejects duplicate members. *)
Fixpoint lookup_member (n : string) (ms : list member) : option (bool * ty) :=
  match ms with
  | [] => None
  | (n', m) :: ms' => if String.eqb n n' then Some m else lookup_member n ms'
  end.

Definition body_of (d : decl) : list member :=
  match d with Interface _ _ body => body | TypeAlias _ _ => [] end.

(** ** Names a type expression refers to *)

Fixpoint refs (t : ty) : list string :=
  match t with
  | TNumber | TString | TBoolean | TVoid | TAny | TUnknown | TLit _ => []
  | TRef n => [n]
  | TArray e => refs e
  | TPromise r => refs r
  | TPartial a => refs a
  | TRecord k v => app (refs k) (refs v)
  | TUnion alts => mjoin (map refs alts)
  | TTuple elems => mjoin (map (fun e => refs (snd e)) elems)
  | TObject ms => mjoin (map (fun m => refs (snd (snd m))) ms)
  | TFun ps r => app (mjoin (map (fun m => refs (snd (snd m))) ps)) (refs r)
  end.

Definition decl_refs (d : decl) : list string :=
  app (mjoin (map (fun e => fst e :: mjoin (map refs (snd e))) (decl_extends d)))
      (refs (decl_type d)).

Definition mem (n : string) (l : list string) : bool := existsb (String.eqb n) l.

(** The names used somewhere in the file that the file neither declares nor
    imports. *)
Definition unresolved : list string :=
  remove_dups (filter (fun n => mem n (app declared imported) = false)
                      (mjoin (map decl_refs declarations))).

(** ** Alias expansion *)

(** A reference to a declared name stands for the declared type.  [depth]
    bounds how many references are followed one inside another; names the
    file does not declare stay as they are. *)
Fixpoint expand (depth : nat) (t : ty) {struct depth} : ty :=
  let fix go (t : ty) {struct t} : ty :=
    match t with
    | TRef n =>
        match depth with
        | O => TRef n
        | S d =>
            match lookup_decl n declarations with
            | Some dc => expand d (decl_type dc)
            | None => TRef n
            end
        end
    | TArray e => TArray (go e)
    | TPromise r => TPromise (go r)
    | TPartial a => TPartial (go a)
    | TRecord k v => TRecord (go k) (go v)
    | TUnion alts => TUnion (map go alts)
    | TTuple elems => TTuple (map (fun e => (fst e, go (snd e))) elems)
    | TObject ms => TObject (map (fun m => (fst m, (fst (snd m), go (snd (snd m))))) ms)
    | TFun ps r => TFun (map (fun m => (fst m, (fst (snd m), go (snd (snd m))))) ps) (go r)
    | _ => t
    end
  in go t.

(** Ten declarations: no chain of references is longer. *)
Definition resolve (t : ty) : ty := expand (length declarations) t.

(** The string literals of a union of literals, [None] for any other type. *)
Fixpoint literals (t : ty) : option (list string) :=
  match t with
  | TLit s => Some [s]
  | TUnion alts =>
      (fix go (l : list ty) : option (list string) :=
         match l with
         | [] => Some []
         | a :: l' =>
             match literals a, go l' with
             | Some x, Some y => Some (app x y)
             | _, _ => None
             end
         end) alts
  | _ => None
  end.

(** ** JavaScript values *)

(** The data that crosses the API: what an event carries and what the
    queries return.  A [number] is an IEEE 754 double, as in JavaScript; an
    object is its list of own properties. *)
Inductive value : Type :=
| VUndefined
| VNull
| VBool (b : bool)
| VNum (x : float)
| VStr (s : string)
| VArr (items : list value)
| VObj (props : list (string * value)).

(** Property read, [obj[k]]: the first entry of that key. *)
Fixpoint get (k : string) (props : list (string * value)) : option value :=
  match props with
  | [] => None
  | (k', x) :: props' => if String.eqb k k' then Some x else get k props'
  end.

(** ** Conformance of a value to a type *)

(** Weak types.  An object type with at least one property, all of them
    optional, takes an object that has no property at all or that has one of
    the declared properties, and no other object.  [keys] are the declared
    property names, [weak] says that all of them are optional. *)
Definition weak_ok (weak : bool) (keys : list string) (props : list (string * value)) : bool :=
  if weak then
    match keys, props with
    | [], _ => true
    | _ :: _, [] => true
    | _ :: _, _ :: _ => existsb (fun q => mem (fst q) keys) props
    end
  else true.

Section Conformance.

(** What the names that the file leaves unresolved stand for. *)
Variable ext : string -> value -> bool.

(** Structural typing of data, on expanded types: whether a value that is
    held in a variable may be given the type.  An optional member may be
    missing or [undefined]; further properties are allowed next to a
    declared one (the check of excess properties is made on object literals
    in the program text, not on values); a weak type wants a property in
    common, see [weak_ok]; [partial] is set directly under [Partial<...>],
    which makes every member optional.  A [value] is data: it is never a
    function or a promise, so no [value] has a function type, a promise
    type, or an object type with a required method such as [RooCodeAPI]. *)
Fixpoint conforms (partial : bool) (t : ty) (v : value) {struct t} : bool :=
  match t with
  | TNumber => match v with VNum _ => true | _ => false end
  | TString => match v with VStr _ => true | _ => false end
  | TBoolean => match v with VBool _ => true | _ => false end
  | TVoid => match v with VUndefined => true | _ => false end
  | TAny | TUnknown => true
  | TLit s => match v with VStr s' => String.eqb s s' | _ => false end
  | TRef n => ext n v
  | TArray e => match v with VArr xs => forallb (conforms false e) xs | _ => false end
  | TPromise _ => false
  | TPartial a => conforms true a v
  | TRecord k e =>
      match v with
      | VObj props =>
          match k with
          | TString => forallb (fun p => conforms false e (snd p)) props
          | _ =>
              match literals k with
              | Some keys =>
                  weak_ok partial keys props &&
                  forallb (fun key =>
                             match get key props with
                             | None => partial
                             | Some VUndefined => partial || conforms false e VUndefined
                             | Some x => conforms false e x
                             end) keys
              | None => false
              end
          end
      | _ => false
      end
  | TUnion alts => existsb (fun a => conforms false a v) alts
  | TTuple elems =>
      match v with
      | VArr xs =>
          (fix go (es : list (option string * ty)) (xs : list value) : bool :=
             match es, xs with
             | [], [] => true
             | (_, e) :: es', x :: xs' => conforms false e x && go es' xs'
             | _, _ => false
             end) elems xs
      | _ => false
      end
  | TObject ms =>
      match v with
      | VObj props =>
          weak_ok (partial || forallb (fun m => fst (snd m)) ms) (map fst ms) props &&
          forallb (fun '(n, (o, m)) =>
                     match get n props with
                     | None => o || partial
                     | Some VUndefined => o || partial || conforms false m VUndefined
                     | Some x => conforms false m x
                     end) ms
      | _ => false
      end
  | TFun _ _ => false
  end.

(** The check [conforms] makes of one member of an object type. *)
Definition member_ok (partial : bool) (props : list (string * value)) (m : member) : bool :=
  let '(n, (o, t)) := m in
  match get n props with
  | None => o || partial
  | Some VUndefined => o || partial || conforms false t VUndefined
  | Some x => conforms false t x
  end.

(** [v] is a value of the declared type [name]. *)
Definition has_type (name : string) (v : value) : bool :=
  conforms false (resolve (TRef name)) v.

(** *** Events *)

(** [EventEmitter<RooCodeEvents>]: [emit(ev, ...args)] is typed when [ev]
    is a key of [RooCodeEvents] and [args] is a tuple of the type at that
    key. *)
Definition payload (ev : string) : option ty :=
  snd <$> lookup_member ev (body_of RooCodeEvents).

Definition emit_ok (ev : string) (args : list value) : bool :=
  match payload ev with
  | Some t => conforms false (resolve t) (VArr args)
  | None => false
  end.

(** A sequence of events each of which type-checks.  Nothing is asked of
    their order or number: which sequences an engine emits is not declared
    in this file. *)
Definition trace_ok (tr : list (string * list value)) : bool :=
  forallb (fun e => emit_ok (fst e) (snd e)) tr.

End Conformance.

(** The strictest reading of an unresolved name: nothing has that type. *)
Definition strict : string -> value -> bool := fun _ _ => false.

(** The literals of the four string enumerations of the file. *)
Definition literals_of (name : string) : list string :=
  default [] (literals (resolve (TRef name))).

(** The same as finite sets of keys. *)
Definition keys (name : string) : gset string := list_to_set (literals_of name).

(** ** Methods *)

(** The declared result of a method of [RooCodeAPI]. *)
Definition returns (m : string) : option ty :=
  match lookup_member m (body_of RooCodeAPI) with
  | Some (_, TFun _ r) => Some r
  | _ => None
  end.

Definition is_promise (t : ty) : bool :=
  match t with TPromise _ => true | _ => false end.

(** ** Values built field by field *)

Definition opt_prop (k : string) (x : option value) : list (string * value) :=
  match x with Some v => [(k, v)] | None => [] end.

(** A token usage, with the fields of [TokenUsage]. *)
Record usage : Type := {
  totalTokensIn : float;
  totalTokensOut : float;
  totalCacheWrites : option float;
  totalCacheReads : option float;
  totalCost : float;
  contextTokens : float
}.

Definition usage_value (u : usage) : value :=
  VObj (app [ ("totalTokensIn", VNum (totalTokensIn u));
              ("totalTokensOut", VNum (totalTokensOut u)) ]
       (app (opt_prop "totalCacheWrites" (VNum <$> totalCacheWrites u))
       (app (opt_prop "totalCacheReads" (VNum <$> totalCacheReads u))
            [ ("totalCost", VNum (totalCost u));
              ("contextTokens", VNum (contextTokens u)) ]))).


(** ** Names of events and methods, by kind *)

Definition one_id_events : list string :=
  ["taskStarted"; "taskPaused"; "taskUnpaused"; "taskAskResponded"; "taskAborted"].

Definition usage_events : list string := ["taskCompleted"; "taskTokenUsageUpdated"].

Definition event_names : list string :=
  "message" :: app one_id_events ("taskSpawned" :: usage_events).

Definition command_methods : list string :=
  [ "startNewTask"; "clearCurrentTask"; "cancelCurrentTask"; "sendMessage";
    "pressPrimaryButton"; "pressSecondaryButton"; "setConfiguration" ].

Definition query_methods : list string :=
  [ "getCurrentTaskStack"; "isReady"; "getMessages"; "getTokenUsage"; "log" ].

(** ** What a consumer reads off an event *)

(** The task an event belongs to: the first argument when it is a string,
    its [taskId] property when it is an object. *)
Definition task_of (args : list value) : option string :=
  match args with
  | VStr tid :: _ => Some tid
  | VObj props :: _ =>
      match get "taskId" props with Some (VStr tid) => Some tid | _ => None end
  | _ => None
  end.

(** The same on the declared payload: its first element is [taskId: string]
    or an object type with a required member [taskId: string]. *)
Definition carries_taskId (t : ty) : bool :=
  match t with
  | TTuple ((Some l, TString) :: _) => String.eqb l "taskId"
  | TTuple ((None, TObject ms) :: _) =>
      match lookup_member "taskId" ms with
      | Some (false, TString) => true
      | _ => false
      end
  | _ => false
  end.

(** The usages that the [taskTokenUsageUpdated] events of a trace report
    for one task, in order. *)
Definition usage_updates (tid : string) (tr : list (string * list value)) : list value :=
  omap (fun e =>
          if String.eqb (fst e) "taskTokenUsageUpdated" then
            match snd e with
            | [VStr t; u] => if String.eqb t tid then Some u else None
            | _ => None
            end
          else None) tr.

(** ** Reading properties *)

Definition number_at (k : string) (v : value) : option float :=
  match v with
  | VObj props => match get k props with Some (VNum x) => Some x | _ => None end
  | _ => None
  end.

Definition present (k : string) (v : value) : bool :=
  match v with
  | VObj props =>
      match get k props with Some VUndefined | None => false | Some _ => true end
  | _ => false
  end.


(** ** Sample values *)

Definition usage_high : value :=
  VObj [ ("totalTokensIn", VNum 1200%float); ("totalTokensOut", VNum 300%float);
         ("totalCost", VNum 0.5%float); ("contextTokens", VNum 1500%float) ].

Definition usage_low : value :=
  VObj [ ("totalTokensIn", VNum 40%float); ("totalTokensOut", VNum (-2)%float);
         ("totalCost", VNum 0.25%float); ("contextTokens", VNum 38%float) ].

Definition shrinking_trace : list (string * list value) :=
  [ ("taskStarted", [VStr "task-1"]);
    ("taskTokenUsageUpdated", [VStr "task-1"; usage_high]);
    ("taskTokenUsageUpdated", [VStr "task-1"; usage_low]) ].

(** [{ ts: 0, type: "ask", say: "text" }] *)
Definition ask_with_say_tag : value :=
  VObj [ ("ts", VNum 0%float); ("type", VStr "ask"); ("say", VStr "text") ].

(** ** Calls of the methods *)

(** The declared parameters of a method that [RooCodeAPI] declares in its
    body.  The methods it inherits from [EventEmitter] have their
    signatures in the module ["events"], which is not part of this file: for
    them, as for any other name, there is no parameter list here. *)
Definition params (m : string) : option (list member) :=
  match lookup_member m (body_of RooCodeAPI) with
  | Some (_, TFun ps _) => Some ps
  | _ => None
  end.

Definition is_undefined (v : value) : bool :=
  match v with VUndefined => true | _ => false end.

(** An argument list against a parameter list: arguments are matched in
    order, a parameter written with [?] may be left out at the end or be
    passed [undefined], and there is no argument beyond the last
    parameter. *)
Fixpoint args_ok (ext : string -> value -> bool)
    (ps : list member) (args : list value) : bool :=
  match ps, args with
  | [], [] => true
  | [], _ :: _ => false
  | (_, (o, _)) :: ps', [] => o && args_ok ext ps' []
  | (_, (o, t)) :: ps', x :: args' =>
      (conforms ext false (resolve t) x || o && is_undefined x) && args_ok ext ps' args'
  end.

(** A call [m(...args)] of one of the twelve methods of the body of
    [RooCodeAPI].  For a name the body does not declare there is nothing to
    check the call against, and the answer is [false]. *)
Definition call_ok (ext : string -> value -> bool) (m : string) (args : list value) : bool :=
  match params m with
  | Some ps => args_ok ext ps args
  | None => false
  end.

(** In a parameter list, no required parameter after an optional one. *)
Fixpoint optional_last (ps : list member) : bool :=
  match ps with
  | [] => true
  | (_, (o, _)) :: ps' =>
      (if o then forallb (fun m => fst (snd m)) ps' else true) && optional_last ps'
  end.

(** ** Reading a token usage back *)

(** An optional number: missing or [undefined] reads as [None]. *)
Definition opt_number_at (k : string) (v : value) : option (option float) :=
  match v with
  | VObj props =>
      match get k props with
      | None | Some VUndefined => Some None
      | Some (VNum x) => Some (Some x)
      | Some _ => None
      end
  | _ => None
  end.

Definition usage_of_value (v : value) : option usage :=
  a ← number_at "totalTokensIn" v;
  b ← number_at "totalTokensOut" v;
  c ← opt_number_at "totalCacheWrites" v;
  d ← opt_number_at "totalCacheReads" v;
  e ← number_at "totalCost" v;
  f ← number_at "contextTokens" v;
  Some {| totalTokensIn := a; totalTokensOut := b; totalCacheWrites := c;
          totalCacheReads := d; totalCost := e; contextTokens := f |}.

(** The names an interface gives its members. *)
Definition member_names (d : decl) : list string := map fst (body_of d).

(** ** Shapes of values, for stating what a type admits *)

(** The property [k] is missing, is [undefined], or satisfies [P]. *)
Definition field_absent_or (props : list (string * value)) (k : string)
    (P : value -> Prop) : Prop :=
  get k props = None \/ get k props = Some VUndefined
  \/ exists x, get k props = Some x /\ P x.

Definition is_string (v : value) : Prop := exists s, v = VStr s.
Definition is_number (v : value) : Prop := exists a, v = VNum a.
Definition is_boolean (v : value) : Prop := exists b, v = VBool b.
Definition is_object (v : value) : Prop := exists props, v = VObj props.
Definition is_string_array (v : value) : Prop :=
  exists xs, v = VArr xs /\ Forall is_string xs.
Definition is_one_of (l : list string) (v : value) : Prop :=
  exists s, v = VStr s /\ s ∈ l.

(** * Properties *)

(** ** Induction on type expressions *)

Section TyInd.
Variable P : ty -> Prop.
Hypothesis HNumber : P TNumber.
Hypothesis HString : P TString.
Hypothesis HBoolean : P TBoolean.
Hypothesis HVoid : P TVoid.
Hypothesis HAny : P TAny.
Hypothesis HUnknown : P TUnknown.
Hypothesis HLit : forall s, P (TLit s).
Hypothesis HRef : forall n, P (TRef n).
Hypothesis HArray : forall e, P e -> P (TArray e).
Hypothesis HPromise : forall r, P r -> P (TPromise r).
Hypothesis HPartial : forall a, P a -> P (TPartial a).
Hypothesis HRecord : forall k v, P k -> P v -> P (TRecord k v).
Hypothesis HUnion : forall alts, Forall P alts -> P (TUnion alts).
Hypothesis HTuple : forall elems, Forall (fun e => P (snd e)) elems -> P (TTuple elems).
Hypothesis HObject : forall ms, Forall (fun m => P (snd (snd m))) ms -> P (TObject ms).
Hypothesis HFun :
  forall ps r, Forall (fun m => P (snd (snd m))) ps -> P r -> P (TFun ps r).

Fixpoint ty_nested_ind (t : ty) : P t :=
  match t with
  | TNumber => HNumber
  | TString => HString
  | TBoolean => HBoolean
  | TVoid => HVoid
  | TAny => HAny
  | TUnknown => HUnknown
  | TLit s => HLit s
  | TRef n => HRef n
  | TArray e => HArray e (ty_nested_ind e)
  | TPromise r => HPromise r (ty_nested_ind r)
  | TPartial a => HPartial a (ty_nested_ind a)
  | TRecord k v => HRecord k v (ty_nested_ind k) (ty_nested_ind v)
  | TUnion alts =>
      HUnion alts
        ((fix all (l : list ty) : Forall P l :=
            match l with
            | [] => Forall_nil_2 P
            | a :: l' => Forall_cons_2 P a l' (ty_nested_ind a) (all l')
            end) alts)
  | TTuple elems =>
      HTuple elems
        ((fix all (l : list (option string * ty)) : Forall (fun e => P (snd e)) l :=
            match l with
            | [] => Forall_nil_2 _
            | a :: l' => Forall_cons_2 _ a l' (ty_nested_ind (snd a)) (all l')
            end) elems)
  | TObject ms =>
      HObject ms
        ((fix all (l : list member) : Forall (fun m => P (snd (snd m))) l :=
            match l with
            | [] => Forall_nil_2 _
            | a :: l' => Forall_cons_2 _ a l' (ty_nested_ind (snd (snd a))) (all l')
            end) ms)
  | TFun ps r =>
      HFun ps r
        ((fix all (l : list member) : Forall (fun m => P (snd (snd m))) l :=
            match l with
            | [] => Forall_nil_2 _
            | a :: l' => Forall_cons_2 _ a l' (ty_nested_ind (snd (snd a))) (all l')
            end) ps)
        (ty_nested_ind r)
  end.
End TyInd.

(** ** Unions of string literals *)

Lemma conforms_union ext p alts v :
  conforms ext p (TUnion alts) v = existsb (fun a => conforms ext false a v) alts.
Proof. reflexivity. Qed.

Lemma literals_union_cons a alts :
  literals (TUnion (a :: alts)) =
  match literals a, literals (TUnion alts) with
  | Some x, Some y => Some (app x y)
  | _, _ => None
  end.
Proof. reflexivity. Qed.

(** A union of literals admits the strings it lists and nothing else. *)
Lemma literals_sound ext t :
  forall l p v,
    literals t = Some l ->
    conforms ext p t v = true <-> exists s, v = VStr s /\ s ∈ l.
Proof.
  induction t using ty_nested_ind; intros l p v Hl; try discriminate Hl.
  - injection Hl as <-. simpl. split.
    + destruct v; try discriminate. intros E%String.eqb_eq. subst.
      eexists; split; [reflexivity | apply list_elem_of_singleton; reflexivity].
    + intros (s' & -> & Hin). apply list_elem_of_singleton in Hin as ->.
      apply String.eqb_refl.
  - revert l p Hl. induction H as [|a alts Ha _ IH]; intros l p Hl.
    + injection Hl as <-. simpl. split; [discriminate|].
      intros (s & _ & Hin). inversion Hin.
    + rewrite literals_union_cons in Hl.
      destruct (literals a) as [x|] eqn:Ex; [|discriminate].
      destruct (literals (TUnion alts)) as [y|] eqn:Ey; [|discriminate].
      injection Hl as <-. rewrite conforms_union. simpl.
      rewrite orb_true_iff, (Ha x false v eq_refl).
      rewrite <- (conforms_union ext p), (IH y p eq_refl).
      split.
      * intros [(s & -> & Hin)|(s & -> & Hin)]; exists s;
          (split; [reflexivity|]); apply elem_of_app; auto.
      * intros (s & -> & [Hin|Hin]%elem_of_app); [left|right]; eauto.
Qed.

(** The four enumerations of the file are unions of literals. *)
Lemma literals_of_spec name :
  name ∈ ["ClineAsk"; "ClineSay"; "SecretKey"; "GlobalStateKey"; "ConfigurationKey"] ->
  literals (resolve (TRef name)) = Some (literals_of name).
Proof.
  intros H. repeat (apply elem_of_cons in H as [->|H]; [vm_compute; reflexivity|]).
  inversion H.
Qed.

Lemma has_type_enum ext name v :
  name ∈ ["ClineAsk"; "ClineSay"; "SecretKey"; "GlobalStateKey"; "ConfigurationKey"] ->
  has_type ext name v = true <-> exists s, v = VStr s /\ s ∈ literals_of name.
Proof.
  intros H. unfold has_type. apply literals_sound, literals_of_spec, H.
Qed.

Lemma literals_NoDup name :
  name ∈ ["ClineAsk"; "ClineSay"; "SecretKey"; "GlobalStateKey"; "ConfigurationKey"] ->
  NoDup (literals_of name).
Proof.
  intros H.
  repeat (apply elem_of_cons in H as [->|H];
          [apply (bool_decide_unpack _); vm_compute; reflexivity|]).
  inversion H.
Qed.

(** No list shorter than the enumeration holds all its values. *)
Lemma enum_not_fewer ext name (l : list string) :
  name ∈ ["ClineAsk"; "ClineSay"; "SecretKey"; "GlobalStateKey"; "ConfigurationKey"] ->
  (forall s, has_type ext name (VStr s) = true -> s ∈ l) ->
  length (literals_of name) <= length l.
Proof.
  intros Hn Hall. apply submseteq_length, NoDup_submseteq.
  - apply literals_NoDup, Hn.
  - intros s Hs. apply Hall, has_type_enum; eauto.
Qed.

(** ** Expansion of the declared names *)

Lemma resolve_ConfigurationKey :
  resolve (TRef "ConfigurationKey") =
  TUnion [resolve (TRef "GlobalStateKey"); resolve (TRef "SecretKey")].
Proof. vm_compute. reflexivity. Qed.

Lemma resolve_ClineMessage :
  resolve (TRef "ClineMessage") =
  TObject [ ("ts", (false, TNumber));
            ("type", (false, TUnion [TLit "ask"; TLit "say"]));
            ("ask", (true, resolve (TRef "ClineAsk")));
            ("say", (true, resolve (TRef "ClineSay")));
            ("text", (true, TString));
            ("images", (true, TArray TString));
            ("partial", (true, TBoolean));
            ("reasoning", (true, TString));
            ("conversationHistoryIndex", (true, TNumber));
            ("checkpoint", (true, TRecord TString TUnknown));
            ("progressStatus", (true, TRef "ToolProgressStatus")) ].
Proof. vm_compute. reflexivity. Qed.

(** Expansion leaves no reference to a declared name: ten levels are
    enough for this file. *)
Lemma resolve_complete :
  Forall (fun d => Forall (fun n => n ∉ declared) (refs (resolve (TRef (decl_name d)))))
         declarations.
Proof. apply (bool_decide_unpack _). vm_compute. reflexivity. Qed.

(** One more level changes nothing. *)
Lemma resolve_stable :
  Forall (fun d => expand (S (length declarations)) (TRef (decl_name d))
                   = resolve (TRef (decl_name d)))
         declarations.
Proof.
  unfold declarations.
  repeat (apply Forall_cons_2; [vm_compute; reflexivity|]). apply Forall_nil_2.
Qed.

(** ** The message vocabulary *)

(** C1 (as amended): [ClineSay] is a closed enumeration of exactly 24 string
    values, the declared literals: they are pairwise different, and a value
    has type [ClineSay] exactly when it is one of these strings. *)
Theorem ClineSay_closed_24 (ext : string -> value -> bool) :
  literals_of "ClineSay" =
    [ "task"; "error"; "api_req_started"; "api_req_finished"; "api_req_retried";
      "api_req_retry_delayed"; "api_req_deleted"; "text"; "reasoning";
      "completion_result"; "user_feedback"; "user_feedback_diff"; "command_output";
      "tool"; "shell_integration_warning"; "browser_action"; "browser_action_result";
      "command"; "mcp_server_request_started"; "mcp_server_response";
      "new_task_started"; "new_task"; "checkpoint_saved"; "rooignore_error" ]
  /\ NoDup (literals_of "ClineSay")
  /\ length (literals_of "ClineSay") = 24
  /\ forall v, has_type ext "ClineSay" v = true <->
               exists s, v = VStr s /\ s ∈ literals_of "ClineSay".
Proof.
  assert (Hin : "ClineSay" ∈
            ["ClineAsk"; "ClineSay"; "SecretKey"; "GlobalStateKey"; "ConfigurationKey"])
    by (apply (bool_decide_unpack _); vm_compute; reflexivity).
  split; [vm_compute; reflexivity|].
  split; [apply literals_NoDup, Hin|].
  split; [vm_compute; reflexivity|].
  intros v. apply has_type_enum, Hin.
Qed.

(** C1, as the spec states it, fails: no 20 strings cover what [ClineSay]
    admits. *)
Lemma ClineSay_not_twenty :
  ~ exists l : list string,
      length l = 20 /\ forall s, has_type strict "ClineSay" (VStr s) = true -> s ∈ l.
Proof.
  intros (l & Hlen & Hall).
  assert (Hin : "ClineSay" ∈
            ["ClineAsk"; "ClineSay"; "SecretKey"; "GlobalStateKey"; "ConfigurationKey"])
    by (apply (bool_decide_unpack _); vm_compute; reflexivity).
  pose proof (enum_not_fewer strict "ClineSay" l Hin Hall) as Hle.
  rewrite Hlen in Hle. vm_compute in Hle. lia.
Qed.

(** C2 (as amended): [ClineAsk] is a closed enumeration of exactly 12 string
    values, the declared literals: they are pairwise different, and a value
    has type [ClineAsk] exactly when it is one of these strings. *)
Theorem ClineAsk_closed_12 (ext : string -> value -> bool) :
  literals_of "ClineAsk" =
    [ "followup"; "command"; "command_output"; "completion_result"; "tool";
      "api_req_failed"; "resume_task"; "resume_completed_task";
      "mistake_limit_reached"; "browser_action_launch"; "use_mcp_server";
      "finishTask" ]
  /\ NoDup (literals_of "ClineAsk")
  /\ length (literals_of "ClineAsk") = 12
  /\ forall v, has_type ext "ClineAsk" v = true <->
               exists s, v = VStr s /\ s ∈ literals_of "ClineAsk".
Proof.
  assert (Hin : "ClineAsk" ∈
            ["ClineAsk"; "ClineSay"; "SecretKey"; "GlobalStateKey"; "ConfigurationKey"])
    by (apply (bool_decide_unpack _); vm_compute; reflexivity).
  split; [vm_compute; reflexivity|].
  split; [apply literals_NoDup, Hin|].
  split; [vm_compute; reflexivity|].
  intros v. apply has_type_enum, Hin.
Qed.

(** C2, as the spec states it, fails: there is no list of 13 different
    strings that is exactly what [ClineAsk] admits. *)
Lemma ClineAsk_not_thirteen :
  ~ exists l : list string,
      length l = 13 /\ NoDup l /\
      forall s, has_type strict "ClineAsk" (VStr s) = true <-> s ∈ l.
Proof.
  intros (l & Hlen & Hnd & Hall).
  assert (Hin : "ClineAsk" ∈
            ["ClineAsk"; "ClineSay"; "SecretKey"; "GlobalStateKey"; "ConfigurationKey"])
    by (apply (bool_decide_unpack _); vm_compute; reflexivity).
  assert (Hle : length l <= length (literals_of "ClineAsk")).
  { apply submseteq_length, NoDup_submseteq; [exact Hnd|].
    intros s Hs. apply Hall, (has_type_enum strict "ClineAsk") in Hs as (s' & E & Hs'); [|exact Hin].
    injection E as ->. exact Hs'. }
  rewrite Hlen in Hle. vm_compute in Hle. lia.
Qed.

(** ** Configuration keys *)

(** C3: no string is both a [GlobalStateKey] and a [SecretKey], and
    [ConfigurationKey] admits exactly the strings that one of the two
    admits. *)
Theorem config_keys_disjoint_union (ext : string -> value -> bool) :
  keys "GlobalStateKey" ## keys "SecretKey"
  /\ keys "ConfigurationKey" = keys "GlobalStateKey" ∪ keys "SecretKey"
  /\ (forall s, ~ (has_type ext "GlobalStateKey" (VStr s) = true
                   /\ has_type ext "SecretKey" (VStr s) = true))
  /\ (forall v, has_type ext "ConfigurationKey" v =
                has_type ext "GlobalStateKey" v || has_type ext "SecretKey" v)
  /\ (forall v, has_type ext "ConfigurationKey" v = true <->
                exists s, v = VStr s /\ s ∈ keys "ConfigurationKey").
Proof.
  assert (Hdisj : Forall (fun s => s ∉ literals_of "SecretKey") (literals_of "GlobalStateKey"))
    by (apply (bool_decide_unpack _); vm_compute; reflexivity).
  rewrite Forall_forall in Hdisj.
  assert (HG : "GlobalStateKey" ∈
            ["ClineAsk"; "ClineSay"; "SecretKey"; "GlobalStateKey"; "ConfigurationKey"])
    by (apply (bool_decide_unpack _); vm_compute; reflexivity).
  assert (HS : "SecretKey" ∈
            ["ClineAsk"; "ClineSay"; "SecretKey"; "GlobalStateKey"; "ConfigurationKey"])
    by (apply (bool_decide_unpack _); vm_compute; reflexivity).
  assert (HC : "ConfigurationKey" ∈
            ["ClineAsk"; "ClineSay"; "SecretKey"; "GlobalStateKey"; "ConfigurationKey"])
    by (apply (bool_decide_unpack _); vm_compute; reflexivity).
  split; [|split; [|split; [|split; [|intros v; split]]]].
  - unfold keys. intros s Hg%elem_of_list_to_set Hs%elem_of_list_to_set.
    exact (Hdisj s Hg Hs).
  - unfold keys.
    replace (literals_of "ConfigurationKey")
      with (app (literals_of "GlobalStateKey") (literals_of "SecretKey"))
      by (vm_compute; reflexivity).
    apply (list_to_set_app_L (C:=gset string)).
  - intros s [Hg Hs].
    apply (has_type_enum ext "GlobalStateKey") in Hg as (s1 & E1 & Hg); [|exact HG].
    apply (has_type_enum ext "SecretKey") in Hs as (s2 & E2 & Hs); [|exact HS].
    injection E1 as <-. injection E2 as <-. exact (Hdisj s Hg Hs).
  - intros v. unfold has_type.
    rewrite resolve_ConfigurationKey, conforms_union. cbn [existsb]. rewrite orb_false_r. reflexivity.
  - intros H. apply (has_type_enum ext "ConfigurationKey") in H as (s & E & Hs); [|exact HC].
    exists s. split; [exact E|]. apply elem_of_list_to_set, Hs.
  - intros (s & E & Hs). apply (has_type_enum ext "ConfigurationKey"); [exact HC|].
    exists s. split; [exact E|]. apply elem_of_list_to_set in Hs. exact Hs.
Qed.

(** ** Objects and tuples *)

Lemma conforms_object_gen ext p ms props :
  conforms ext p (TObject ms) (VObj props) =
  weak_ok (p || forallb (fun m => fst (snd m)) ms) (map fst ms) props
  && forallb (member_ok ext p props) ms.
Proof. reflexivity. Qed.

(** An object type with a required member is not weak. *)
Lemma conforms_object ext ms props :
  forallb (fun m => fst (snd m)) ms = false ->
  conforms ext false (TObject ms) (VObj props) = forallb (member_ok ext false props) ms.
Proof.
  intros H. rewrite conforms_object_gen. cbn [orb]. rewrite H. reflexivity.
Qed.

(** A required member is there and has its type. *)
Lemma member_ok_req ext props n t :
  conforms ext false t VUndefined = false ->
  member_ok ext false props (n, (false, t)) = true <->
  exists x, get n props = Some x /\ conforms ext false t x = true.
Proof.
  intros Hu. unfold member_ok. destruct (get n props) as [x|].
  - destruct x; simpl; rewrite ?Hu; split;
      first [ discriminate | intros (y & [= <-] & Hy); congruence | eauto ].
  - simpl. split; [discriminate | intros (y & [=] & _)].
Qed.

(** An optional member is missing, [undefined], or has its type. *)
Lemma member_ok_opt ext props n t :
  member_ok ext false props (n, (true, t)) = true <->
  get n props = None \/ get n props = Some VUndefined \/
  exists x, get n props = Some x /\ conforms ext false t x = true.
Proof.
  unfold member_ok. destruct (get n props) as [x|].
  - destruct x; simpl; split;
      first [ intros _; right; left; reflexivity
            | intros H; right; right; eauto
            | intros [[=]|[[=]|(y & [= <-] & Hy)]]; exact Hy
            | reflexivity ].
  - simpl. split; auto.
Qed.

Lemma conforms_number ext x :
  conforms ext false TNumber x = true <-> exists a, x = VNum a.
Proof. destruct x; simpl; split; first [discriminate | by intros [? [=]] | by eauto]. Qed.

Lemma conforms_string ext x :
  conforms ext false TString x = true <-> exists s, x = VStr s.
Proof. destruct x; simpl; split; first [discriminate | by intros [? [=]] | by eauto]. Qed.

Lemma conforms_tuple1 ext p l1 t1 args :
  conforms ext p (TTuple [(l1, t1)]) (VArr args) = true <->
  exists x, args = [x] /\ conforms ext false t1 x = true.
Proof.
  destruct args as [|x [|y r]]; simpl.
  - split; [discriminate | intros (? & [=] & _)].
  - rewrite andb_true_r. split; [eauto | intros (? & [= <-] & H); exact H].
  - rewrite andb_false_r. split; [discriminate | intros (? & [=] & _)].
Qed.

Lemma conforms_tuple2 ext p l1 t1 l2 t2 args :
  conforms ext p (TTuple [(l1, t1); (l2, t2)]) (VArr args) = true <->
  exists x y, args = [x; y] /\ conforms ext false t1 x = true
              /\ conforms ext false t2 y = true.
Proof.
  destruct args as [|x [|y [|z r]]]; simpl.
  - split; [discriminate | intros (? & ? & [=] & _)].
  - rewrite andb_false_r. split; [discriminate | intros (? & ? & [=] & _)].
  - rewrite andb_true_r, andb_true_iff.
    split; [intros []; eauto 6 | intros (? & ? & [= <- <-] & H); exact H].
  - rewrite !andb_false_r. split; [discriminate | intros (? & ? & [=] & _)].
Qed.

(** ** Events *)

Lemma payload_names ev t :
  payload ev = Some t ->
  ev ∈ event_names.
Proof.
  unfold payload, RooCodeEvents, body_of, req, lab. cbn [lookup_member].
  repeat match goal with
         | |- context [String.eqb ev ?s] =>
             destruct (String.eqb_spec ev s) as [->|_];
             [intros _; apply (bool_decide_unpack _); vm_compute; reflexivity|]
         end.
  discriminate.
Qed.

Lemma emit_one_id ext ev args :
  ev ∈ one_id_events ->
  emit_ok ext ev args = true <-> exists tid, args = [VStr tid].
Proof.
  intros H.
  assert (E : emit_ok ext ev args =
              conforms ext false (TTuple [lab "taskId" TString]) (VArr args)).
  { repeat (apply elem_of_cons in H as [->|H]; [reflexivity|]). inversion H. }
  rewrite E. unfold lab. rewrite conforms_tuple1. split.
  - intros (x & -> & (s & ->)%conforms_string). eauto.
  - intros (tid & ->). eexists; split; [reflexivity|]. reflexivity.
Qed.

Lemma emit_spawned ext args :
  emit_ok ext "taskSpawned" args = true <->
  exists tid child, args = [VStr tid; VStr child].
Proof.
  change (emit_ok ext "taskSpawned" args)
    with (conforms ext false (TTuple [lab "taskId" TString; lab "childTaskId" TString])
            (VArr args)).
  unfold lab. rewrite conforms_tuple2. split.
  - intros (x & y & -> & (s & ->)%conforms_string & (s' & ->)%conforms_string). eauto.
  - intros (tid & child & ->). do 2 eexists. split; [reflexivity|]. split; reflexivity.
Qed.

Lemma emit_usage ext ev args :
  ev ∈ usage_events ->
  emit_ok ext ev args = true <->
  exists tid u, args = [VStr tid; u] /\ has_type ext "TokenUsage" u = true.
Proof.
  intros H.
  assert (E : emit_ok ext ev args =
              conforms ext false
                (TTuple [lab "taskId" TString; lab "usage" (resolve (TRef "TokenUsage"))])
                (VArr args)).
  { repeat (apply elem_of_cons in H as [->|H]; [reflexivity|]). inversion H. }
  rewrite E. unfold lab. rewrite conforms_tuple2. unfold has_type. split.
  - intros (x & y & -> & (s & ->)%conforms_string & Hy). eauto.
  - intros (tid & u & -> & Hu). do 2 eexists. split; [reflexivity|]. split; [reflexivity|exact Hu].
Qed.

Lemma emit_message ext args :
  emit_ok ext "message" args = true <->
  exists props tid action msg,
    args = [VObj props]
    /\ get "taskId" props = Some (VStr tid)
    /\ get "action" props = Some (VStr action)
    /\ (action = "created" \/ action = "updated")
    /\ get "message" props = Some msg
    /\ has_type ext "ClineMessage" msg = true.
Proof.
  change (emit_ok ext "message" args)
    with (conforms ext false
            (TTuple [ (None, TObject [ ("taskId", (false, TString));
                                       ("action", (false, TUnion [TLit "created"; TLit "updated"]));
                                       ("message", (false, resolve (TRef "ClineMessage"))) ]) ])
            (VArr args)).
  rewrite conforms_tuple1. unfold has_type. split.
  - intros (x & -> & Hx). destruct x; try discriminate Hx.
    rewrite conforms_object in Hx by reflexivity. cbn [forallb] in Hx.
    apply andb_true_iff in Hx as [H1 Hx]. apply andb_true_iff in Hx as [H2 Hx].
    apply andb_true_iff in Hx as [H3 _].
    apply member_ok_req in H1 as (x1 & G1 & (tid & ->)%conforms_string); [|reflexivity].
    apply member_ok_req in H2 as (x2 & G2 & C2); [|reflexivity].
    apply member_ok_req in H3 as (x3 & G3 & C3); [|reflexivity].
    apply (literals_sound ext _ ["created"; "updated"]) in C2 as (a & -> & Ha);
      [|reflexivity].
    exists props, tid, a, x3. repeat (split; [first [reflexivity | assumption]|]).
    split; [|split; assumption].
    apply elem_of_cons in Ha as [->|Ha]; [left; reflexivity|].
    apply list_elem_of_singleton in Ha as ->. right; reflexivity.
  - intros (props & tid & a & msg & -> & G1 & G2 & Ha & G3 & C3).
    eexists; split; [reflexivity|].
    rewrite conforms_object by reflexivity. cbn [forallb].
    rewrite !andb_true_iff. repeat split.
    + apply member_ok_req; [reflexivity|]. eauto.
    + apply member_ok_req; [reflexivity|]. eexists; split; [exact G2|].
      destruct Ha as [-> | ->]; reflexivity.
    + apply member_ok_req; [reflexivity|]. eauto.
Qed.

(** C4: [RooCodeEvents] has exactly nine events, and each carries the
    stated payload: ['message'] one object [{taskId, action, message}] with
    [action] one of ['created'] and ['updated']; the five events
    ['taskStarted'], ['taskPaused'], ['taskUnpaused'], ['taskAskResponded'],
    ['taskAborted'] one task id; ['taskSpawned'] the pair (taskId,
    childTaskId); ['taskCompleted'] and ['taskTokenUsageUpdated'] the pair
    (taskId, usage: TokenUsage).  Both the declared tuples and the argument
    lists that type-check against them are given. *)
Theorem event_contract_nine (ext : string -> value -> bool) :
  fst <$> body_of RooCodeEvents =
    [ "message"; "taskStarted"; "taskPaused"; "taskUnpaused"; "taskAskResponded";
      "taskAborted"; "taskSpawned"; "taskCompleted"; "taskTokenUsageUpdated" ]
  /\ payload "message" =
       Some (TTuple [ (None, TObject [ req "taskId" TString;
                                       req "action" (TUnion [TLit "created"; TLit "updated"]);
                                       req "message" (TRef "ClineMessage") ]) ])
  /\ (forall ev, ev ∈ one_id_events -> payload ev = Some (TTuple [lab "taskId" TString]))
  /\ payload "taskSpawned" = Some (TTuple [lab "taskId" TString; lab "childTaskId" TString])
  /\ (forall ev, ev ∈ usage_events ->
       payload ev = Some (TTuple [lab "taskId" TString; lab "usage" (TRef "TokenUsage")]))
  /\ (forall ev args, emit_ok ext ev args = true -> ev ∈ event_names)
  /\ (forall args,
        emit_ok ext "message" args = true <->
        exists props tid action msg,
          args = [VObj props]
          /\ get "taskId" props = Some (VStr tid)
          /\ get "action" props = Some (VStr action)
          /\ (action = "created" \/ action = "updated")
          /\ get "message" props = Some msg
          /\ has_type ext "ClineMessage" msg = true)
  /\ (forall ev args, ev ∈ one_id_events ->
        emit_ok ext ev args = true <-> exists tid, args = [VStr tid])
  /\ (forall args,
        emit_ok ext "taskSpawned" args = true <->
        exists tid child, args = [VStr tid; VStr child])
  /\ (forall ev args, ev ∈ usage_events ->
        emit_ok ext ev args = true <->
        exists tid u, args = [VStr tid; u] /\ has_type ext "TokenUsage" u = true).
Proof.
  split; [reflexivity|]. split; [reflexivity|].
  split.
  { intros ev H. repeat (apply elem_of_cons in H as [->|H]; [reflexivity|]). inversion H. }
  split; [reflexivity|].
  split.
  { intros ev H. repeat (apply elem_of_cons in H as [->|H]; [reflexivity|]). inversion H. }
  split.
  { intros ev args H. unfold emit_ok in H.
    destruct (payload ev) as [t|] eqn:E; [|discriminate]. exact (payload_names ev t E). }
  split; [apply emit_message|].
  split; [intros ev args; apply emit_one_id|].
  split; [apply emit_spawned|].
  intros ev args. apply emit_usage.
Qed.

(** C5: [TokenUsage] has the required numeric fields [totalTokensIn],
    [totalTokensOut], [totalCost], [contextTokens], the optional numeric
    fields [totalCacheWrites], [totalCacheReads], and no other field; an
    object has the type exactly when the four are numbers and each of the two
    is missing, [undefined] or a number. *)
Theorem TokenUsage_field_set (ext : string -> value -> bool) :
  (forall n o t,
      (n, (o, t)) ∈ body_of TokenUsage <->
      t = TNumber /\
      (o = false /\ n ∈ ["totalTokensIn"; "totalTokensOut"; "totalCost"; "contextTokens"]
       \/ o = true /\ n ∈ ["totalCacheWrites"; "totalCacheReads"]))
  /\ NoDup (fst <$> body_of TokenUsage)
  /\ (forall props,
        has_type ext "TokenUsage" (VObj props) = true <->
        Forall (fun n => exists x, get n props = Some (VNum x))
          ["totalTokensIn"; "totalTokensOut"; "totalCost"; "contextTokens"]
        /\ Forall (fun n => get n props = None \/ get n props = Some VUndefined
                            \/ exists x, get n props = Some (VNum x))
             ["totalCacheWrites"; "totalCacheReads"]).
Proof.
  split; [|split].
  - intros n o t. unfold TokenUsage, body_of, req, opt. split.
    + intros H.
      repeat (apply elem_of_cons in H as [[= -> -> ->]|H];
              [split; [reflexivity|];
               first [ left; split; [reflexivity|];
                       apply (bool_decide_unpack _); vm_compute; reflexivity
                     | right; split; [reflexivity|];
                       apply (bool_decide_unpack _); vm_compute; reflexivity ]|]).
      inversion H.
    + intros [-> [[-> H]|[-> H]]];
        repeat (apply elem_of_cons in H as [->|H];
                [repeat first [apply list_elem_of_here | apply list_elem_of_further]|]);
        inversion H.
  - apply (bool_decide_unpack _). vm_compute. reflexivity.
  - intros props. unfold has_type.
    change (resolve (TRef "TokenUsage")) with (TObject (body_of TokenUsage)).
    rewrite conforms_object by reflexivity.
    unfold TokenUsage, body_of, req, opt. cbn [forallb].
    rewrite !andb_true_iff, !Forall_cons, !Forall_nil.
    rewrite !member_ok_req by reflexivity. rewrite !member_ok_opt.
    assert (N : forall n, (exists x, get n props = Some x /\ conforms ext false TNumber x = true)
                          <-> exists a, get n props = Some (VNum a)).
    { intros n. split.
      - intros (x & G & (a & ->)%conforms_number). eauto.
      - intros (a & G). eauto. }
    rewrite !N. tauto.
Qed.

(** C6: each of the seven command methods of [RooCodeAPI] returns a
    promise, [startNewTask] a promise of a string; the query methods
    [getCurrentTaskStack], [isReady], [getMessages], [getTokenUsage] and
    [log] do not return a promise: [isReady] returns a boolean,
    [getMessages] an array of [ClineMessage], [getTokenUsage] a
    [TokenUsage].  The interface has no other method. *)
Theorem api_method_results :
  (forall m, m ∈ command_methods -> exists r, returns m = Some (TPromise r))
  /\ returns "startNewTask" = Some (TPromise TString)
  /\ (forall m, m ∈ query_methods -> exists r, returns m = Some r /\ is_promise r = false)
  /\ returns "getCurrentTaskStack" = Some (TArray TString)
  /\ returns "isReady" = Some TBoolean
  /\ returns "getMessages" = Some (TArray (TRef "ClineMessage"))
  /\ returns "getTokenUsage" = Some (TRef "TokenUsage")
  /\ returns "log" = Some TVoid
  /\ (forall m, is_Some (returns m) <-> m ∈ app command_methods query_methods)
  /\ (forall m, is_Some (lookup_member m (body_of RooCodeAPI)) -> is_Some (returns m)).
Proof.
  split.
  { intros m H.
    repeat (apply elem_of_cons in H as [->|H]; [eexists; reflexivity|]). inversion H. }
  split; [reflexivity|].
  split.
  { intros m H.
    repeat (apply elem_of_cons in H as [->|H]; [eexists; split; reflexivity|]).
    inversion H. }
  do 5 (split; [reflexivity|]).
  assert (K : forall m, is_Some (lookup_member m (body_of RooCodeAPI)) ->
                        is_Some (returns m) /\ m ∈ app command_methods query_methods).
  { intros m. unfold returns, RooCodeAPI, body_of, method. cbn [lookup_member].
    repeat match goal with
           | |- context [String.eqb m ?s] =>
               destruct (String.eqb_spec m s) as [->|_];
               [intros _; split; [eexists; reflexivity|];
                apply (bool_decide_unpack _); vm_compute; reflexivity|]
           end.
    intros [? [=]]. }
  split.
  - intros m. split.
    + intros H. apply K. unfold returns in H.
      destruct (lookup_member m (body_of RooCodeAPI)); [eauto|]. destruct H as [? [=]].
    + intros H.
      repeat (apply elem_of_cons in H as [->|H]; [eexists; reflexivity|]). inversion H.
  - intros m H. apply K, H.
Qed.

(** ** Token usages and the events that report them *)

Lemma usage_value_has_type ext u : has_type ext "TokenUsage" (usage_value u) = true.
Proof. destruct u as [a b [c|] [d|] e f]; reflexivity. Qed.

Lemma usage_updates_cons tid ev args tr :
  usage_updates tid ((ev, args) :: tr) =
  app (usage_updates tid [(ev, args)]) (usage_updates tid tr).
Proof.
  unfold usage_updates. cbn [omap list_omap fst snd].
  destruct (String.eqb ev "taskTokenUsageUpdated"); [|reflexivity].
  destruct args as [|[] [|u [|]]]; try reflexivity.
  destruct (String.eqb s tid); reflexivity.
Qed.

(** ** Messages *)

Lemma message_type ext x :
  conforms ext false (TUnion [TLit "ask"; TLit "say"]) x = true <->
  exists s, x = VStr s /\ (s = "ask" \/ s = "say").
Proof.
  rewrite (literals_sound ext _ ["ask"; "say"]) by reflexivity.
  split; intros (s & -> & H); exists s; (split; [reflexivity|]).
  - apply elem_of_cons in H as [->|H]; [left; reflexivity|].
    apply list_elem_of_singleton in H as ->. right; reflexivity.
  - destruct H as [-> | ->]; apply (bool_decide_unpack _); vm_compute; reflexivity.
Qed.



(** ** Routing events to tasks *)

(** C9: every event of [RooCodeEvents] names its task: the declared
    payload starts with [taskId: string], or (for ['message']) is an object
    with the required member [taskId: string]; so from the arguments of any
    well-typed event a consumer reads the task id. *)
Theorem every_event_routes_to_task
    (ext : string -> value -> bool) (ev : string) (args : list value)
    (H : emit_ok ext ev args = true) :
  (exists t, payload ev = Some t /\ carries_taskId t = true)
  /\ exists tid, task_of args = Some tid.
Proof.
  assert (Hev : ev ∈ event_names).
  { unfold emit_ok in H. destruct (payload ev) as [t|] eqn:E; [|discriminate].
    exact (payload_names ev t E). }
  unfold event_names in Hev.
  apply elem_of_cons in Hev as [->|Hev].
  { split; [eexists; split; reflexivity|].
    apply emit_message in H as (props & tid & a & msg & -> & G & _).
    exists tid. simpl. rewrite G. reflexivity. }
  apply elem_of_app in Hev as [Hev|Hev].
  { split.
    - repeat (apply elem_of_cons in Hev as [->|Hev]; [eexists; split; reflexivity|]).
      inversion Hev.
    - apply (emit_one_id ext ev args Hev) in H as (tid & ->). exists tid. reflexivity. }
  apply elem_of_cons in Hev as [->|Hev].
  { split; [eexists; split; reflexivity|].
    apply emit_spawned in H as (tid & child & ->). exists tid. reflexivity. }
  split.
  - repeat (apply elem_of_cons in Hev as [->|Hev]; [eexists; split; reflexivity|]).
    inversion Hev.
  - apply (emit_usage ext ev args Hev) in H as (tid & u & -> & _). exists tid. reflexivity.
Qed.

Lemma every_event_routes_to_task_witness :
  emit_ok strict "taskSpawned" [VStr "task-1"; VStr "task-2"] = true
  /\ ((exists t, payload "taskSpawned" = Some t /\ carries_taskId t = true)
      /\ exists tid, task_of [VStr "task-1"; VStr "task-2"] = Some tid).
Proof.
  split; [reflexivity|].
  apply (every_event_routes_to_task strict "taskSpawned" [VStr "task-1"; VStr "task-2"]).
  reflexivity.
Defined.

(** ** The unresolved name *)

(** C10: [progressStatus] has the type [ToolProgressStatus], a name the
    file neither declares nor imports (its one import is [EventEmitter] from
    ["events"]): it is the one unresolved name of the file, it is still
    there when [ClineMessage] is expanded, and whether a value may stand in
    [progressStatus] is decided by what that name means outside the file and
    by nothing in it. *)
Theorem progressStatus_unresolved :
  lookup_member "progressStatus" (body_of ClineMessage)
    = Some (true, TRef "ToolProgressStatus")
  /\ ("ToolProgressStatus" ∉ declared)
  /\ imports = [ (["EventEmitter"], "events") ]
  /\ ("ToolProgressStatus" ∉ imported)
  /\ unresolved = ["ToolProgressStatus"]
  /\ refs (resolve (TRef "ClineMessage")) = ["ToolProgressStatus"]
  /\ (forall ext v, has_type ext "ToolProgressStatus" v = ext "ToolProgressStatus" v)
  /\ (forall ext ts v,
        has_type ext "ClineMessage"
          (VObj [("ts", VNum ts); ("type", VStr "say"); ("progressStatus", v)])
        = match v with VUndefined => true | _ => ext "ToolProgressStatus" v end).
Proof.
  split; [reflexivity|].
  split; [apply (bool_decide_unpack _); vm_compute; reflexivity|].
  split; [reflexivity|].
  split; [apply (bool_decide_unpack _); vm_compute; reflexivity|].
  split; [vm_compute; reflexivity|].
  split; [vm_compute; reflexivity|].
  split; [reflexivity|].
  intros ext ts v. unfold has_type.
  rewrite resolve_ClineMessage, conforms_object by reflexivity.
  destruct v; simpl; rewrite ?andb_true_r; reflexivity.
Qed.

(** * Further properties of the declarations *)

(** ** Alias expansion reaches a fixed point *)

Lemma lookup_decl_None n ds :
  lookup_decl n ds = None <-> n ∉ map decl_name ds.
Proof.
  induction ds as [|d ds IH]; simpl.
  - split; [intros _ H; inversion H | reflexivity].
  - destruct (String.eqb_spec n (decl_name d)) as [->|Hne].
    + split; [discriminate | intros H; exfalso; apply H; left].
    + rewrite IH. rewrite not_elem_of_cons. tauto.
Qed.

Lemma expand_TRef_O n : expand 0 (TRef n) = TRef n.
Proof. reflexivity. Qed.

Lemma expand_TRef_S k n :
  expand (S k) (TRef n) =
  match lookup_decl n declarations with
  | Some dc => expand k (decl_type dc)
  | None => TRef n
  end.
Proof. reflexivity. Qed.

Lemma expand_TArray k e : expand k (TArray e) = TArray (expand k e).
Proof. destruct k; reflexivity. Qed.

Lemma expand_TPromise k e : expand k (TPromise e) = TPromise (expand k e).
Proof. destruct k; reflexivity. Qed.

Lemma expand_TPartial k e : expand k (TPartial e) = TPartial (expand k e).
Proof. destruct k; reflexivity. Qed.

Lemma expand_TRecord k a b : expand k (TRecord a b) = TRecord (expand k a) (expand k b).
Proof. destruct k; reflexivity. Qed.

Lemma expand_TUnion k alts : expand k (TUnion alts) = TUnion (map (expand k) alts).
Proof. destruct k; reflexivity. Qed.

Lemma expand_TTuple k elems :
  expand k (TTuple elems) = TTuple (map (fun e => (fst e, expand k (snd e))) elems).
Proof. destruct k; reflexivity. Qed.

Lemma expand_TObject k ms :
  expand k (TObject ms) =
  TObject (map (fun m => (fst m, (fst (snd m), expand k (snd (snd m))))) ms).
Proof. destruct k; reflexivity. Qed.

Lemma expand_TFun k ps r :
  expand k (TFun ps r) =
  TFun (map (fun m => (fst m, (fst (snd m), expand k (snd (snd m))))) ps) (expand k r).
Proof. destruct k; reflexivity. Qed.

(** Stepping through a list of components, each with its own part of the
    hypothesis on references. *)
Ltac expand_list H Hr :=
  simpl in Hr;
  induction H as [|? ? Ha _ IH]; [reflexivity|];
  simpl in Hr; apply Forall_app in Hr as [H1 H2];
  cbn [map]; f_equal; [|apply IH; exact H2];
  first [ apply Ha; exact H1
        | f_equal; apply Ha; exact H1
        | do 2 f_equal; apply Ha; exact H1 ].

Lemma expand_fixed k :
  forall t,
    Forall (fun n => n ∉ declared) (refs (expand k t)) ->
    expand (S k) t = expand k t.
Proof.
  induction k as [|k IHk]; intros t; induction t using ty_nested_ind; intros Hr;
    try reflexivity.
  all: rewrite ?expand_TArray, ?expand_TPromise, ?expand_TPartial, ?expand_TRecord,
         ?expand_TUnion, ?expand_TTuple, ?expand_TObject, ?expand_TFun in *.
  all: try (simpl in Hr; f_equal; auto; fail).
  all: try (simpl in Hr; apply Forall_app in Hr as [H1 H2]; f_equal; auto; fail).
  (* a reference, at depth 0 *)
  - rewrite expand_TRef_O in Hr. apply Forall_cons in Hr as [Hn _].
    rewrite expand_TRef_S. apply lookup_decl_None in Hn. rewrite Hn. reflexivity.
  - f_equal. expand_list H Hr.
  - f_equal. expand_list H Hr.
  - f_equal. expand_list H Hr.
  - simpl in Hr. apply Forall_app in Hr as [Hp Hret]. f_equal; [|auto].
    clear Hret IHt. expand_list H Hp.
  (* a reference, deeper *)
  - rewrite expand_TRef_S in Hr. rewrite (expand_TRef_S (S k)), (expand_TRef_S k).
    destruct (lookup_decl n declarations) as [dc|]; [|reflexivity].
    apply IHk, Hr.
  - f_equal. expand_list H Hr.
  - f_equal. expand_list H Hr.
  - f_equal. expand_list H Hr.
  - simpl in Hr. apply Forall_app in Hr as [Hp Hret]. f_equal; [|auto].
    clear Hret IHt. expand_list H Hp.
Qed.

Lemma expand_stable k t j :
  Forall (fun n => n ∉ declared) (refs (expand k t)) ->
  expand (k + j) t = expand k t.
Proof.
  intros Hr. induction j as [|j IH].
  - rewrite Nat.add_0_r. reflexivity.
  - rewrite Nat.add_succ_r, expand_fixed; [exact IH|]. rewrite IH. exact Hr.
Qed.

(** X1: the declared names do not refer to themselves, directly or through
    one another: following references four levels deep leaves no declared
    name in any of the ten types, every further level changes nothing, and
    three levels are not enough for [RooCodeAPI]. *)
Theorem expansion_depth_four :
  Forall (fun d => Forall (fun n => n ∉ declared) (refs (expand 4 (TRef (decl_name d)))))
         declarations
  /\ (forall d j, d ∈ declarations ->
        expand (4 + j) (TRef (decl_name d)) = expand 4 (TRef (decl_name d)))
  /\ (forall d, d ∈ declarations ->
        resolve (TRef (decl_name d)) = expand 4 (TRef (decl_name d)))
  /\ "GlobalStateKey" ∈ refs (expand 3 (TRef "RooCodeAPI")).
Proof.
  assert (H4 : Forall (fun d => Forall (fun n => n ∉ declared)
                                  (refs (expand 4 (TRef (decl_name d))))) declarations)
    by (apply (bool_decide_unpack _); vm_compute; reflexivity).
  split; [exact H4|]. rewrite Forall_forall in H4.
  split; [|split].
  - intros d j Hd. apply expand_stable, H4, Hd.
  - intros d Hd. apply (expand_stable 4 _ 6), H4, Hd.
  - apply (bool_decide_unpack _). vm_compute. reflexivity.
Qed.

(** ** Types that do not depend on the unresolved name *)

Lemma forallb_eq {A} (f g : A -> bool) l :
  (forall x, f x = g x) -> forallb f l = forallb g l.
Proof. intros E. induction l as [|x l IH]; simpl; [reflexivity|]. rewrite E, IH. reflexivity. Qed.

(** Conformance looks at the outside meaning of the names a type refers to
    and of no other. *)
Lemma conforms_ext ext ext' t :
  (forall n, n ∈ refs t -> forall v, ext n v = ext' n v) ->
  forall p v, conforms ext p t v = conforms ext' p t v.
Proof.
  induction t using ty_nested_ind; intros Hr p v; try reflexivity.
  - simpl. apply Hr. left.
  - destruct v; try reflexivity. simpl. apply forallb_eq. intros x. apply IHt, Hr.
  - simpl. apply IHt, Hr.
  - assert (E : forall q x, conforms ext q t2 x = conforms ext' q t2 x).
    { intros q x. apply IHt2. intros n Hn. apply Hr. simpl. apply elem_of_app. right; exact Hn. }
    destruct v; try reflexivity.
    destruct t1; cbn [conforms];
      first [ apply forallb_eq; intros x; apply E
            | destruct (literals _); [|reflexivity]; f_equal;
              apply forallb_eq; intros x; destruct (get x props) as [[]|];
              rewrite ?E; reflexivity ].
  - rewrite !conforms_union. induction H as [|a alts Ha _ IH]; [reflexivity|].
    simpl. rewrite Ha, IH; [reflexivity| |].
    + intros n Hn. apply Hr. simpl. apply elem_of_app. right; exact Hn.
    + intros n Hn. apply Hr. simpl. apply elem_of_app. left; exact Hn.
  - destruct v; try reflexivity. simpl. revert items.
    induction H as [|[l a] elems Ha _ IH]; intros [|x xs]; try reflexivity.
    simpl in Ha. rewrite Ha, IH; [reflexivity| |].
    + intros n Hn. apply Hr. simpl. apply elem_of_app. right; exact Hn.
    + intros n Hn. apply Hr. simpl. apply elem_of_app. left; exact Hn.
  - destruct v; try reflexivity. rewrite !conforms_object_gen. f_equal.
    induction H as [|[n [o a]] ms Ha _ IH]; [reflexivity|].
    cbn [forallb]. rewrite IH.
    + f_equal. unfold member_ok. simpl in Ha.
      assert (E : forall x, conforms ext false a x = conforms ext' false a x).
      { intros x. apply Ha. intros m Hm. apply Hr. simpl. apply elem_of_app. left; exact Hm. }
      destruct (get n props) as [[]|]; rewrite ?E; reflexivity.
    + intros m Hm. apply Hr. simpl. apply elem_of_app. right; exact Hm.
Qed.

Lemma conforms_closed ext ext' t :
  refs t = [] -> forall p v, conforms ext p t v = conforms ext' p t v.
Proof.
  intros E. apply conforms_ext. rewrite E. intros n Hn. inversion Hn.
Qed.

Lemma member_ok_closed ext ext' p props n o t :
  refs t = [] -> member_ok ext p props (n, (o, t)) = member_ok ext' p props (n, (o, t)).
Proof.
  intros E. unfold member_ok.
  destruct (get n props) as [[]|]; rewrite ?(conforms_closed ext ext' t E); reflexivity.
Qed.

(** X2: what [ToolProgressStatus] stands for matters to the type of a
    message that has a [progressStatus] and to nothing else: the other
    declared data types, the events other than ['message'], and a message
    without that property are typed the same under any two readings of the
    name. *)
Theorem unresolved_name_only_in_progressStatus (ext ext' : string -> value -> bool) :
  (forall name v,
      name ∈ ["TokenUsage"; "ClineAsk"; "ClineSay"; "SecretKey"; "GlobalStateKey";
              "ConfigurationKey"; "ConfigurationValues"] ->
      has_type ext name v = has_type ext' name v)
  /\ (forall ev args,
        ev ∈ app one_id_events ("taskSpawned" :: usage_events) ->
        emit_ok ext ev args = emit_ok ext' ev args)
  /\ (forall props,
        present "progressStatus" (VObj props) = false ->
        has_type ext "ClineMessage" (VObj props) = has_type ext' "ClineMessage" (VObj props)).
Proof.
  split; [|split].
  - intros name v H. unfold has_type.
    repeat (apply elem_of_cons in H as [->|H];
            [apply conforms_closed; vm_compute; reflexivity|]).
    inversion H.
  - intros ev args H. unfold emit_ok.
    repeat (apply elem_of_cons in H as [->|H];
            [apply conforms_closed; vm_compute; reflexivity|]).
    inversion H.
  - intros props Hp. unfold has_type.
    rewrite resolve_ClineMessage, !conforms_object by reflexivity. cbn [forallb].
    repeat (rewrite (member_ok_closed ext ext') by (vm_compute; reflexivity); f_equal).
    f_equal. unfold member_ok. unfold present in Hp.
    destruct (get "progressStatus" props) as [[]|]; try discriminate Hp; reflexivity.
Qed.

(** ** The shape of a message *)

Lemma conforms_boolean ext x :
  conforms ext false TBoolean x = true <-> is_boolean x.
Proof.
  unfold is_boolean.
  destruct x; simpl; split; first [discriminate | by intros [? [=]] | by eauto].
Qed.

Lemma conforms_string_array ext x :
  conforms ext false (TArray TString) x = true <-> is_string_array x.
Proof.
  unfold is_string_array. destruct x; simpl;
    try (split; [discriminate | by intros (? & [=] & _)]).
  split.
  - intros H. eexists; split; [reflexivity|].
    apply Forall_forall. intros y Hy%list_elem_of_In.
    rewrite forallb_forall in H. exact (proj1 (conforms_string ext y) (H y Hy)).
  - intros (xs & [= <-] & H). apply forallb_forall. intros y Hy%list_elem_of_In.
    rewrite Forall_forall in H.
    exact (proj2 (conforms_string ext y) (H y Hy)).
Qed.

Lemma conforms_any_object ext x :
  conforms ext false (TRecord TString TUnknown) x = true <-> is_object x.
Proof.
  unfold is_object. destruct x; simpl;
    try (split; [discriminate | by intros (? & [=])]).
  split; [eauto|]. intros _. induction props as [|q props IH]; [reflexivity|exact IH].
Qed.

Lemma conforms_enum ext name x :
  name ∈ ["ClineAsk"; "ClineSay"; "SecretKey"; "GlobalStateKey"; "ConfigurationKey"] ->
  conforms ext false (resolve (TRef name)) x = true <-> is_one_of (literals_of name) x.
Proof. intros H. apply (has_type_enum ext name x H). Qed.

Lemma field_absent_or_iff props k (P Q : value -> Prop) :
  (forall x, P x <-> Q x) ->
  (get k props = None \/ get k props = Some VUndefined
   \/ exists x, get k props = Some x /\ P x) <-> field_absent_or props k Q.
Proof.
  intros E. unfold field_absent_or.
  split; (intros [H|[H|(x & G & H)]]; [left; exact H | right; left; exact H |]);
    right; right; exists x; (split; [exact G|]); apply E, H.
Qed.

(** X3: an object is a [ClineMessage] exactly when [ts] is a number,
    [type] is ['ask'] or ['say'], and each of the nine other declared
    properties is missing, [undefined] or of its type: [ask] and [say] of
    their enumerations, [text] and [reasoning] strings, [images] an array of
    strings, [partial] a boolean, [conversationHistoryIndex] a number,
    [checkpoint] any object, [progressStatus] whatever the unresolved name
    admits.  Nothing but an object is a [ClineMessage]. *)
Theorem ClineMessage_shape (ext : string -> value -> bool) :
  (forall v, has_type ext "ClineMessage" v = true -> is_object v)
  /\ forall props,
      has_type ext "ClineMessage" (VObj props) = true <->
      (exists a, get "ts" props = Some (VNum a))
      /\ (exists t, get "type" props = Some (VStr t) /\ (t = "ask" \/ t = "say"))
      /\ field_absent_or props "ask" (is_one_of (literals_of "ClineAsk"))
      /\ field_absent_or props "say" (is_one_of (literals_of "ClineSay"))
      /\ field_absent_or props "text" is_string
      /\ field_absent_or props "images" is_string_array
      /\ field_absent_or props "partial" is_boolean
      /\ field_absent_or props "reasoning" is_string
      /\ field_absent_or props "conversationHistoryIndex" is_number
      /\ field_absent_or props "checkpoint" is_object
      /\ field_absent_or props "progressStatus"
           (fun x => ext "ToolProgressStatus" x = true).
Proof.
  split.
  { intros v H. unfold has_type in H. rewrite resolve_ClineMessage in H.
    destruct v; try discriminate H. eexists; reflexivity. }
  intros props. unfold has_type.
  rewrite resolve_ClineMessage, conforms_object by reflexivity. cbn [forallb].
  rewrite !andb_true_iff, !member_ok_req by reflexivity. rewrite !member_ok_opt.
  assert (HA : "ClineAsk" ∈
            ["ClineAsk"; "ClineSay"; "SecretKey"; "GlobalStateKey"; "ConfigurationKey"])
    by (apply (bool_decide_unpack _); vm_compute; reflexivity).
  assert (HS : "ClineSay" ∈
            ["ClineAsk"; "ClineSay"; "SecretKey"; "GlobalStateKey"; "ConfigurationKey"])
    by (apply (bool_decide_unpack _); vm_compute; reflexivity).
  rewrite (field_absent_or_iff props "ask" _ _ (fun x => conforms_enum ext "ClineAsk" x HA)).
  rewrite (field_absent_or_iff props "say" _ _ (fun x => conforms_enum ext "ClineSay" x HS)).
  rewrite (field_absent_or_iff props "text" _ _ (conforms_string ext)).
  rewrite (field_absent_or_iff props "images" _ _ (conforms_string_array ext)).
  rewrite (field_absent_or_iff props "partial" _ _ (conforms_boolean ext)).
  rewrite (field_absent_or_iff props "reasoning" _ _ (conforms_string ext)).
  rewrite (field_absent_or_iff props "conversationHistoryIndex" _ _ (conforms_number ext)).
  rewrite (field_absent_or_iff props "checkpoint" _ _ (conforms_any_object ext)).
  rewrite (field_absent_or_iff props "progressStatus"
             (fun x => conforms ext false (TRef "ToolProgressStatus") x = true)
             (fun x => ext "ToolProgressStatus" x = true))
    by (intros x; reflexivity).
  assert (T : (exists x, get "ts" props = Some x /\ conforms ext false TNumber x = true)
              <-> exists a, get "ts" props = Some (VNum a)).
  { split.
    - intros (x & G & (a & ->)%conforms_number). eauto.
    - intros (a & G). eexists; split; [exact G|reflexivity]. }
  assert (K : (exists x, get "type" props = Some x
                         /\ conforms ext false (TUnion [TLit "ask"; TLit "say"]) x = true)
              <-> exists t, get "type" props = Some (VStr t) /\ (t = "ask" \/ t = "say")).
  { split.
    - intros (x & G & (t & -> & Ht)%message_type). eauto.
    - intros (t & G & Ht). eexists; split; [exact G|]. apply message_type. eauto. }
  rewrite T, K. intuition.
Qed.

(** ** Tags common to both enumerations *)

(** X4: four strings are both a [ClineAsk] and a [ClineSay] value:
    ['command'], ['command_output'], ['completion_result'] and ['tool'];
    no other string is.  The tag alone does not tell an ask from a say. *)
Theorem ask_say_shared_tags (ext : string -> value -> bool) (s : string) :
  has_type ext "ClineAsk" (VStr s) = true /\ has_type ext "ClineSay" (VStr s) = true
  <-> s ∈ ["command"; "command_output"; "completion_result"; "tool"].
Proof.
  assert (HA : "ClineAsk" ∈
            ["ClineAsk"; "ClineSay"; "SecretKey"; "GlobalStateKey"; "ConfigurationKey"])
    by (apply (bool_decide_unpack _); vm_compute; reflexivity).
  assert (HS : "ClineSay" ∈
            ["ClineAsk"; "ClineSay"; "SecretKey"; "GlobalStateKey"; "ConfigurationKey"])
    by (apply (bool_decide_unpack _); vm_compute; reflexivity).
  assert (F : Forall (fun a => a ∈ literals_of "ClineSay" ->
                               a ∈ ["command"; "command_output"; "completion_result"; "tool"])
                     (literals_of "ClineAsk"))
    by (apply (bool_decide_unpack _); vm_compute; reflexivity).
  assert (B : Forall (fun a => a ∈ literals_of "ClineAsk" /\ a ∈ literals_of "ClineSay")
                     ["command"; "command_output"; "completion_result"; "tool"])
    by (apply (bool_decide_unpack _); vm_compute; reflexivity).
  rewrite Forall_forall in F, B.
  rewrite (has_type_enum ext "ClineAsk" _ HA), (has_type_enum ext "ClineSay" _ HS).
  split.
  - intros [(a & [= <-] & Ha) (b & [= <-] & Hb)]. exact (F s Ha Hb).
  - intros H. destruct (B s H) as [Ha Hb]. split; exists s; split; auto.
Qed.

(** ** Configuration objects *)

Lemma conforms_record_keys ext p k e props keys :
  literals k = Some keys ->
  conforms ext p (TRecord k e) (VObj props) =
  weak_ok p keys props &&
  forallb (fun key =>
             match get key props with
             | None => p
             | Some VUndefined => p || conforms ext false e VUndefined
             | Some x => conforms ext false e x
             end) keys.
Proof.
  intros H. destruct k; try discriminate H; cbn [conforms]; rewrite H; reflexivity.
Qed.

Lemma resolve_ConfigurationValues :
  resolve (TRef "ConfigurationValues") = TRecord (resolve (TRef "ConfigurationKey")) TAny.
Proof. vm_compute. reflexivity. Qed.

Lemma ConfigurationKey_literals :
  literals (resolve (TRef "ConfigurationKey")) = Some (literals_of "ConfigurationKey").
Proof. vm_compute. reflexivity. Qed.

(** X5: there are 104 configuration keys, all different: the 91 of
    [GlobalStateKey] and the 13 of [SecretKey].  A value is a
    [ConfigurationValues] exactly when it is an object that has every one of
    them as a property; what the properties hold is not constrained. *)
Theorem ConfigurationValues_needs_every_key (ext : string -> value -> bool) :
  length (literals_of "GlobalStateKey") = 91
  /\ length (literals_of "SecretKey") = 13
  /\ length (literals_of "ConfigurationKey") = 104
  /\ NoDup (literals_of "ConfigurationKey")
  /\ forall v,
      has_type ext "ConfigurationValues" v = true <->
      exists props,
        v = VObj props
        /\ forall k, k ∈ literals_of "ConfigurationKey" -> is_Some (get k props).
Proof.
  do 3 (split; [vm_compute; reflexivity|]).
  split; [apply literals_NoDup, (bool_decide_unpack _); vm_compute; reflexivity|].
  intros v. unfold has_type. rewrite resolve_ConfigurationValues.
  destruct v;
    try (split; [intros H; discriminate H | intros (? & [=] & _)]).
  rewrite (conforms_record_keys ext false _ TAny props _ ConfigurationKey_literals).
  cbn [weak_ok andb]. rewrite forallb_forall. split.
  - intros H. exists props. split; [reflexivity|].
    intros k Hk%list_elem_of_In. specialize (H k Hk).
    destruct (get k props); [eauto | discriminate H].
  - intros (? & [= <-] & H) k Hk%list_elem_of_In.
    destruct (H k Hk) as [x Hx]. rewrite Hx. destruct x; reflexivity.
Qed.

(** ** Calls *)

Lemma call_ok_params ext m ps args :
  params m = Some ps -> call_ok ext m args = args_ok ext ps args.
Proof. intros H. unfold call_ok. rewrite H. reflexivity. Qed.

Lemma mem_elem_of n l : mem n l = true <-> n ∈ l.
Proof.
  unfold mem. induction l as [|x l IH]; simpl.
  - split; [discriminate | intros H; inversion H].
  - rewrite orb_true_iff, IH, elem_of_cons, String.eqb_eq. reflexivity.
Qed.

Lemma get_is_Some k props : is_Some (get k props) <-> k ∈ map fst props.
Proof.
  induction props as [|[k' x] props IH]; simpl.
  - split; [intros [? [=]] | intros H; inversion H].
  - rewrite elem_of_cons. destruct (String.eqb_spec k k') as [->|Hne].
    + split; [left; reflexivity | eauto].
    + rewrite IH. split; [right; assumption | intros [E|H]; [contradiction|exact H]].
Qed.

(** A weak type takes the empty object and the objects that have one of its
    properties. *)
Lemma weak_ok_true keys props :
  keys <> [] ->
  weak_ok true keys props = true <->
  props = [] \/ exists k, k ∈ keys /\ is_Some (get k props).
Proof.
  intros Hk. destruct keys as [|k0 keys]; [contradiction|].
  destruct props as [|q props]; [split; auto|].
  cbn [weak_ok]. rewrite existsb_exists. split.
  - intros (q' & Hin & Hm). right. exists (fst q'). split; [apply mem_elem_of, Hm|].
    apply get_is_Some, list_elem_of_In, in_map, Hin.
  - intros [[=]|(k & Hk' & Hg)].
    apply get_is_Some, list_elem_of_In, in_map_iff in Hg as (q' & <- & Hin).
    exists q'. split; [exact Hin | apply mem_elem_of, Hk'].
Qed.

(** X6: [setConfiguration] takes exactly one argument, an object that is
    empty or has at least one configuration key among its properties (any
    value may stand at a key): [Partial<ConfigurationValues>] has only
    optional properties, which makes it a weak type.  An object none of
    whose properties is a configuration key, and anything that is not an
    object, is not accepted. *)
Theorem setConfiguration_argument (ext : string -> value -> bool) (args : list value) :
  call_ok ext "setConfiguration" args = true <->
  exists props,
    args = [VObj props]
    /\ (props = [] \/ exists k, k ∈ literals_of "ConfigurationKey" /\ is_Some (get k props)).
Proof.
  rewrite (call_ok_params ext _ [req "values" (TPartial (TRef "ConfigurationValues"))])
    by reflexivity.
  unfold req. cbn [args_ok].
  change (resolve (TPartial (TRef "ConfigurationValues")))
    with (TPartial (resolve (TRef "ConfigurationValues"))).
  rewrite resolve_ConfigurationValues.
  destruct args as [|x [|y r]].
  - split; [discriminate | intros (? & [=] & _)].
  - cbn [args_ok andb orb]. rewrite orb_false_r, andb_true_r.
    change (conforms ext false (TPartial (TRecord (resolve (TRef "ConfigurationKey")) TAny)) x)
      with (conforms ext true (TRecord (resolve (TRef "ConfigurationKey")) TAny) x).
    destruct x; try (split; [intros H; discriminate H | intros (? & [=] & _)]).
    rewrite (conforms_record_keys ext true _ TAny props _ ConfigurationKey_literals).
    assert (A : forallb
                  (fun key =>
                     match get key props with
                     | None => true
                     | Some VUndefined => true || conforms ext false TAny VUndefined
                     | Some x => conforms ext false TAny x
                     end) (literals_of "ConfigurationKey") = true).
    { apply forallb_forall. intros k _. destruct (get k props) as [[]|]; reflexivity. }
    rewrite A, andb_true_r, weak_ok_true by (vm_compute; discriminate).
    split.
    + intros H. exists props. split; [reflexivity | exact H].
    + intros (? & [= <-] & H). exact H.
  - cbn [args_ok]. rewrite andb_false_r. split; [discriminate | intros (? & [=] & _)].
Qed.

Lemma args_ok_nil ext args : args_ok ext [] args = true <-> args = [].
Proof. destruct args; simpl; split; first [reflexivity | discriminate]. Qed.

Lemma args_ok_req_cons ext n t ps args :
  args_ok ext ((n, (false, t)) :: ps) args = true <->
  exists a r, args = a :: r /\ conforms ext false (resolve t) a = true
              /\ args_ok ext ps r = true.
Proof.
  destruct args as [|a r]; cbn [args_ok andb orb].
  - split; [discriminate | intros (? & ? & [=] & _)].
  - rewrite orb_false_r, andb_true_iff. split.
    + intros [H1 H2]. eauto.
    + intros (? & ? & [= <- <-] & H). exact H.
Qed.

Lemma args_ok_opt_cons ext n t ps args :
  args_ok ext ((n, (true, t)) :: ps) args = true <->
  (args = [] /\ args_ok ext ps [] = true)
  \/ exists a r, args = a :: r
                 /\ (a = VUndefined \/ conforms ext false (resolve t) a = true)
                 /\ args_ok ext ps r = true.
Proof.
  destruct args as [|a r]; cbn [args_ok andb orb].
  - split; [intros H; left; auto | intros [[_ H]|(? & ? & [=] & _)]; exact H].
  - rewrite andb_true_iff, orb_true_iff. split.
    + intros [[H1|H1] H2]; right; exists a, r; (split; [reflexivity|]); split; auto.
      destruct a; try discriminate H1. left; reflexivity.
    + intros [[[=] _]|(? & ? & [= <- <-] & [->|H1] & H2)]; split; auto.
Qed.

(** X7: of the twelve methods that [RooCodeAPI] declares in its body, the
    five without a parameter are called with no argument and with nothing
    else, and those that can be called without any argument are eight: these
    five and [startNewTask], [clearCurrentTask] and [sendMessage], whose
    parameters are all optional; the other four need an argument.  (The
    methods inherited from [EventEmitter] are declared outside this file and
    are not spoken of.) *)
Theorem calls_without_arguments (ext : string -> value -> bool) :
  Forall (fun m => forall args, call_ok ext m args = true <-> args = [])
    [ "getCurrentTaskStack"; "cancelCurrentTask"; "pressPrimaryButton";
      "pressSecondaryButton"; "isReady" ]
  /\ Forall (fun m =>
               call_ok ext m [] = true <->
               m ∈ [ "startNewTask"; "getCurrentTaskStack"; "clearCurrentTask";
                     "cancelCurrentTask"; "sendMessage"; "pressPrimaryButton";
                     "pressSecondaryButton"; "isReady" ])
       (member_names RooCodeAPI)
  /\ member_names RooCodeAPI =
       [ "startNewTask"; "getCurrentTaskStack"; "clearCurrentTask"; "cancelCurrentTask";
         "sendMessage"; "pressPrimaryButton"; "pressSecondaryButton"; "setConfiguration";
         "isReady"; "getMessages"; "getTokenUsage"; "log" ].
Proof.
  split; [|split; [|reflexivity]].
  - repeat (apply Forall_cons_2;
            [intros args; rewrite (call_ok_params ext _ []) by reflexivity;
             apply args_ok_nil|]).
    apply Forall_nil_2.
  - unfold member_names, RooCodeAPI, body_of, method. cbn [map fst].
    repeat (apply Forall_cons_2;
            [split;
             [ intros H;
               first [ discriminate H
                     | apply (bool_decide_unpack _); vm_compute; reflexivity ]
             | intros H;
               first [ reflexivity
                     | exfalso; repeat (apply elem_of_cons in H as [[=]|H]); inversion H ] ]|]).
    apply Forall_nil_2.
Qed.

(** X8: [getMessages], [getTokenUsage] and [log] are called with exactly
    one argument, a string; neither without it nor with [undefined]. *)
Theorem calls_with_one_string (ext : string -> value -> bool) :
  Forall (fun m => forall args, call_ok ext m args = true <-> exists s, args = [VStr s])
    [ "getMessages"; "getTokenUsage"; "log" ].
Proof.
  repeat (apply Forall_cons_2;
          [intros args;
           first [ rewrite (call_ok_params ext _ [req "taskId" TString]) by reflexivity
                 | rewrite (call_ok_params ext _ [req "message" TString]) by reflexivity ];
           unfold req; rewrite args_ok_req_cons;
           change (resolve TString) with TString;
           split;
           [ intros (a & r & -> & (s & ->)%conforms_string & ->%args_ok_nil); eauto
           | intros (s & ->); do 2 eexists; split; [reflexivity|]; split; reflexivity ]|]).
  apply Forall_nil_2.
Qed.

(** X9: [startNewTask] and [sendMessage] take up to two arguments, both
    optional: a text, which is a string or [undefined], and then images, an
    array of strings or [undefined]; a third argument is an error.
    [clearCurrentTask] takes at most the one text. *)
Theorem calls_with_text_and_images (ext : string -> value -> bool) :
  Forall (fun m => forall args,
              call_ok ext m args = true <->
              args = []
              \/ (exists a, args = [a] /\ (a = VUndefined \/ is_string a))
              \/ (exists a b, args = [a; b]
                              /\ (a = VUndefined \/ is_string a)
                              /\ (b = VUndefined \/ is_string_array b)))
    [ "startNewTask"; "sendMessage" ]
  /\ forall args,
      call_ok ext "clearCurrentTask" args = true <->
      args = [] \/ exists a, args = [a] /\ (a = VUndefined \/ is_string a).
Proof.
  assert (K : forall n1 n2 args,
             args_ok ext [opt n1 TString; opt n2 (TArray TString)] args = true <->
             args = []
             \/ (exists a, args = [a] /\ (a = VUndefined \/ is_string a))
             \/ (exists a b, args = [a; b]
                             /\ (a = VUndefined \/ is_string a)
                             /\ (b = VUndefined \/ is_string_array b))).
  { intros n1 n2 args. unfold opt. rewrite args_ok_opt_cons.
    change (resolve TString) with TString. split.
    - intros [[-> _]|(a & r & -> & Ha & Hr)]; [left; reflexivity|right].
      rewrite conforms_string in Ha.
      apply args_ok_opt_cons in Hr as [[-> _]|(b & r' & -> & Hb & ->%args_ok_nil)].
      + left. eauto.
      + right. exists a, b. change (resolve (TArray TString)) with (TArray TString) in Hb.
        rewrite conforms_string_array in Hb. auto.
    - intros [->|[(a & -> & Ha)|(a & b & -> & Ha & Hb)]].
      + left. split; reflexivity.
      + right. exists a, []. rewrite conforms_string. repeat split; auto.
      + right. exists a, [b]. rewrite conforms_string. repeat split; auto.
        apply args_ok_opt_cons. right. exists b, [].
        change (resolve (TArray TString)) with (TArray TString).
        rewrite conforms_string_array. repeat split; auto. }
  split.
  - repeat (apply Forall_cons_2;
            [intros args;
             first [ rewrite (call_ok_params ext _ [opt "task" TString; opt "images" (TArray TString)])
                       by reflexivity
                   | rewrite (call_ok_params ext _ [opt "message" TString; opt "images" (TArray TString)])
                       by reflexivity ];
             apply K|]).
    apply Forall_nil_2.
  - intros args.
    rewrite (call_ok_params ext _ [opt "lastMessage" TString]) by reflexivity.
    unfold opt. rewrite args_ok_opt_cons. change (resolve TString) with TString. split.
    + intros [[-> _]|(a & r & -> & Ha & ->%args_ok_nil)]; [left; reflexivity|right].
      rewrite conforms_string in Ha. eauto.
    + intros [->|(a & -> & Ha)]; [left; split; reflexivity|right].
      exists a, []. rewrite conforms_string. repeat split; auto.
Qed.

(** ** Token usage, read back *)

Lemma number_at_is_Some ext k props :
  (exists x, get k props = Some x /\ conforms ext false TNumber x = true)
  <-> is_Some (number_at k (VObj props)).
Proof.
  unfold number_at. destruct (get k props) as [[]|]; split;
    solve [ intros (? & [= <-] & H); discriminate H
          | intros (? & [=] & _)
          | intros [? [=]]
          | intros _; eexists; reflexivity
          | intros _; eexists; split; reflexivity ].
Qed.

Lemma opt_number_at_is_Some ext k props :
  (get k props = None \/ get k props = Some VUndefined
   \/ exists x, get k props = Some x /\ conforms ext false TNumber x = true)
  <-> is_Some (opt_number_at k (VObj props)).
Proof.
  unfold opt_number_at. destruct (get k props) as [[]|]; split;
    solve [ intros [[=]|[[=]|(? & [= <-] & H)]]; discriminate H
          | intros [? [=]]
          | intros _; eexists; reflexivity
          | intros _; left; reflexivity
          | intros _; right; left; reflexivity
          | intros _; right; right; eexists; split; reflexivity ].
Qed.

(** The values that read as a token usage are those of type
    [TokenUsage]. *)
Lemma TokenUsage_readable ext v :
  has_type ext "TokenUsage" v = true <-> is_Some (usage_of_value v).
Proof.
  unfold has_type.
  change (resolve (TRef "TokenUsage")) with (TObject (body_of TokenUsage)).
  destruct v; try (split; [intros H; discriminate H | intros [? [=]]]).
  rewrite conforms_object by reflexivity.
  unfold TokenUsage, body_of, req, opt. cbn [forallb].
  rewrite !andb_true_iff, !member_ok_req by reflexivity. rewrite !member_ok_opt.
  rewrite !opt_number_at_is_Some, !number_at_is_Some.
  unfold usage_of_value.
  destruct (number_at "totalTokensIn" (VObj props)),
           (number_at "totalTokensOut" (VObj props)),
           (opt_number_at "totalCacheWrites" (VObj props)),
           (opt_number_at "totalCacheReads" (VObj props)),
           (number_at "totalCost" (VObj props)),
           (number_at "contextTokens" (VObj props));
    cbn [mbind option_bind]; rewrite ?is_Some_alt; tauto.
Qed.


(** ** What no declared data type admits *)

(** X11: the nine declared types other than [RooCodeAPI] (whose values hold
    methods and are not data) each have values, and none of them admits
    [null], [undefined], a number or a boolean. *)
Theorem data_types_never_null (ext : string -> value -> bool) :
  Forall (fun d =>
            (exists v, has_type ext (decl_name d) v = true)
            /\ forall v, has_type ext (decl_name d) v = true ->
                         match v with
                         | VUndefined | VNull | VBool _ | VNum _ => False
                         | VStr _ | VArr _ | VObj _ => True
                         end)
         [ TokenUsage; RooCodeEvents; ClineAsk; ClineSay; ClineMessage;
           SecretKey; GlobalStateKey; ConfigurationKey; ConfigurationValues ].
Proof.
  assert (N : forall d, (forall b, has_type ext (decl_name d) (VBool b) = false) ->
                        (forall x, has_type ext (decl_name d) (VNum x) = false) ->
                        has_type ext (decl_name d) VUndefined = false ->
                        has_type ext (decl_name d) VNull = false ->
                        forall v, has_type ext (decl_name d) v = true ->
                                  match v with
                                  | VUndefined | VNull | VBool _ | VNum _ => False
                                  | VStr _ | VArr _ | VObj _ => True
                                  end).
  { intros d Hb Hn Hu Hl v H. destruct v; try exact I;
      rewrite ?Hb, ?Hn, ?Hu, ?Hl in H; discriminate H. }
  repeat (apply Forall_cons_2;
          [split; [|apply N; intros; reflexivity]|]); [| | | | | | | | |apply Forall_nil_2].
  - exists usage_high. reflexivity.
  - exists (VObj [ ("message",
                    VArr [VObj [ ("taskId", VStr "task-1"); ("action", VStr "created");
                                 ("message", ask_with_say_tag) ]]);
                   ("taskStarted", VArr [VStr "task-1"]);
                   ("taskPaused", VArr [VStr "task-1"]);
                   ("taskUnpaused", VArr [VStr "task-1"]);
                   ("taskAskResponded", VArr [VStr "task-1"]);
                   ("taskAborted", VArr [VStr "task-1"]);
                   ("taskSpawned", VArr [VStr "task-1"; VStr "task-2"]);
                   ("taskCompleted", VArr [VStr "task-1"; usage_high]);
                   ("taskTokenUsageUpdated", VArr [VStr "task-1"; usage_high]) ]).
    reflexivity.
  - exists (VStr "followup"). reflexivity.
  - exists (VStr "text"). reflexivity.
  - exists ask_with_say_tag. reflexivity.
  - exists (VStr "apiKey"). reflexivity.
  - exists (VStr "mode"). reflexivity.
  - exists (VStr "mode"). reflexivity.
  - exists (VObj (map (fun k => (k, VBool true)) (literals_of "ConfigurationKey"))).
    vm_compute. reflexivity.
Qed.

(** ** Names are unambiguous *)

(** X12: the file declares no name twice, no interface has two members of
    one name, no method two parameters of one name, no method or event
    shares its name with another, and in every parameter list the optional
    parameters come last. *)
Theorem names_unambiguous :
  NoDup declared
  /\ Forall (fun d => NoDup (member_names d)) declarations
  /\ Forall (fun m => match snd (snd m) with
                      | TFun ps _ => NoDup (map fst ps) /\ optional_last ps = true
                      | _ => True
                      end) (body_of RooCodeAPI)
  /\ (forall m, m ∈ member_names RooCodeAPI -> m ∉ member_names RooCodeEvents).
Proof.
  split; [apply (bool_decide_unpack _); vm_compute; reflexivity|].
  split.
  { unfold declarations.
    repeat (apply Forall_cons_2; [apply (bool_decide_unpack _); vm_compute; reflexivity|]).
    apply Forall_nil_2. }
  split.
  { unfold RooCodeAPI, body_of, method.
    repeat (apply Forall_cons_2;
            [cbn [snd]; split;
             [apply (bool_decide_unpack _); vm_compute; reflexivity | reflexivity]|]).
    apply Forall_nil_2. }
  apply Forall_forall. apply (bool_decide_unpack _). vm_compute. reflexivity.
Qed.

(** ** Usages in a well-typed run *)

(** X13: in a run that type-checks, every usage reported for a task by a
    [taskTokenUsageUpdated] event is a [TokenUsage], and so reads back as
    the six fields. *)
Theorem reported_usages_read_back
    (ext : string -> value -> bool) (tid : string) (tr : list (string * list value))
    (H : trace_ok ext tr = true) :
  Forall (fun u => has_type ext "TokenUsage" u = true /\ is_Some (usage_of_value u))
         (usage_updates tid tr).
Proof.
  induction tr as [|[ev args] tr IH]; [constructor|].
  cbn [trace_ok forallb fst snd] in H. apply andb_true_iff in H as [He Ht].
  rewrite usage_updates_cons. apply Forall_app. split; [|apply IH, Ht].
  unfold usage_updates. cbn [omap list_omap fst snd].
  destruct (String.eqb_spec ev "taskTokenUsageUpdated") as [->|_]; [|constructor].
  apply (emit_usage ext "taskTokenUsageUpdated") in He as (t & u & -> & Hu);
    [|apply (bool_decide_unpack _); vm_compute; reflexivity].
  destruct (String.eqb t tid); [|constructor].
  constructor; [|constructor]. split; [exact Hu|].
  exact (proj1 (TokenUsage_readable ext u) Hu).
Qed.

Lemma reported_usages_read_back_witness :
  trace_ok strict shrinking_trace = true
  /\ Forall (fun u => has_type strict "TokenUsage" u = true /\ is_Some (usage_of_value u))
            (usage_updates "task-1" shrinking_trace).
Proof.
  split; [reflexivity|].
  apply (reported_usages_read_back strict "task-1" shrinking_trace). reflexivity.
Defined.
